(** * Accommodation manager and review feature: a shallow embedding

    The three components of the repository
    ([ManageAccommodations.tsx], [ReviewForm.tsx], [ReviewList.tsx]) are
    React function components.  Each event handler is embedded as a small
    program over the component's state: synchronous effects (state setters,
    toasts, callbacks) are emitted in order, and every [await] is a node
    whose continuation receives the answer of the remote side.

    - [JS]       strings as UTF-16 code units, [split], [trim], [join],
                 the number type and [toFixed];
    - [Async]    handler programs, running them to the next suspension or
                 against a scripted remote side;
    - [Accommodations], [ReviewForm], [ReviewList]  the components;
    - [Samples]  concrete states, records and remote sides.

    The facts follow the definitions: strings, numbers, the review form,
    the accommodation manager (handler by handler, then as an event-driven
    system), and the review list. *)

From Stdlib Require Import List ZArith NArith Bool Lia.
From Stdlib Require Import Sorted Permutation.
From Stdlib Require Import QArith Qround Qabs Qpower Qreduction Lqa.
From Stdlib Require Qcanon.
From Stdlib Require Import SpecFloat.
From Stdlib Require Import String Ascii.
Import ListNotations.

(* ================================================================== *)
(** ** JavaScript values used by the components *)
(* ================================================================== *)

Module JS.

(** A string is a finite sequence of UTF-16 code units. *)
Definition code_unit := N.
Definition jstring := list code_unit.

(** Source literals are ASCII; [lit] reads one as a [jstring]. *)
Definition lit (s : String.string) : jstring :=
  map N_of_ascii (list_ascii_of_string s).

(** [a === b] on strings. *)
Fixpoint str_eqb (a b : jstring) : bool :=
  match a, b with
  | [], [] => true
  | x :: a', y :: b' => N.eqb x y && str_eqb a' b'
  | _, _ => false
  end.

(** Truthiness of a string: only the empty string is falsy. *)
Definition truthy (s : jstring) : bool :=
  match s with [] => false | _ :: _ => true end.

(** [Array.prototype.find]. *)
Definition find {A} (p : A -> bool) (l : list A) : option A :=
  List.find p l.

Definition comma : code_unit := 44%N.
Definition space : code_unit := 32%N.

(** [s.split(sep)] for a separator of one code unit: the substrings between
    successive occurrences of the separator, the rest of the string last.
    An empty string gives one empty token. *)
Fixpoint split (sep : code_unit) (s : jstring) : list jstring :=
  match s with
  | [] => [[]]
  | c :: s' =>
      if N.eqb c sep then [] :: split sep s'
      else match split sep s' with
           | t :: ts => (c :: t) :: ts
           | [] => [[c]]
           end
  end.

(** White space as [String.prototype.trim] sees it: the WhiteSpace and
    LineTerminator productions of the language. *)
Definition is_white (c : code_unit) : bool :=
  (N.eqb c 9 || N.eqb c 10 || N.eqb c 11 || N.eqb c 12 || N.eqb c 13
   || N.eqb c 32 || N.eqb c 160 || N.eqb c 5760
   || (N.leb 8192 c && N.leb c 8202)
   || N.eqb c 8232 || N.eqb c 8233 || N.eqb c 8239 || N.eqb c 8287
   || N.eqb c 12288 || N.eqb c 65279)%N%bool.

Fixpoint trim_start (s : jstring) : jstring :=
  match s with
  | [] => []
  | c :: s' => if is_white c then trim_start s' else s
  end.

Definition trim_end (s : jstring) : jstring := rev (trim_start (rev s)).

(** [s.trim()]. *)
Definition trim (s : jstring) : jstring := trim_end (trim_start s).

(** [String(n)] for a non-negative integer. *)
Definition digit (d : Z) : code_unit := Z.to_N (48 + d).

Fixpoint digits_loop (fuel : nat) (n : Z) (acc : jstring) : jstring :=
  match fuel with
  | O => acc
  | S fuel' =>
      let acc' := digit (n mod 10) :: acc in
      if (n <? 10)%Z then acc' else digits_loop fuel' (n / 10) acc'
  end.

(** The decimal digits of a positive integer, most significant first. *)
Definition decimal_digits (n : Z) : jstring :=
  digits_loop (S (Z.to_nat (Z.log2 n))) n [].

Definition int_to_string (n : Z) : jstring :=
  if (n =? 0)%Z then lit "0" else decimal_digits n.

(** [arr.join(sep)]. *)
Fixpoint join (sep : jstring) (l : list jstring) : jstring :=
  match l with
  | [] => []
  | [t] => t
  | t :: ts => t ++ sep ++ join sep ts
  end.

(** *** What the tokens of a comma-separated text are

    Stated apart from [split] and [trim], to compare them with. *)

(** [raw] is [s] cut at every occurrence of [sep]: the pieces, joined by
    [sep], give [s] back, and no piece contains [sep]. *)
Definition cut_at (sep : code_unit) (s : jstring) (raw : list jstring)
  : Prop :=
  raw <> [] /\ join [sep] raw = s /\ Forall (fun t => ~ In sep t) raw.

Definition begins_white (t : jstring) : bool :=
  match t with
  | c :: _ => is_white c
  | [] => false
  end.

Definition ends_white (t : jstring) : bool := begins_white (rev t).

(** [t] is [r] without the white space at its two ends. *)
Definition trimmed_of (r t : jstring) : Prop :=
  exists a b,
    r = a ++ t ++ b
    /\ forallb is_white a = true /\ forallb is_white b = true
    /\ begins_white t = false /\ ends_white t = false.

(** [toks] are the comma-separated tokens of [s], each trimmed, in the
    order of the text, none dropped and none merged. *)
Definition tokens_of (s : jstring) (toks : list jstring) : Prop :=
  exists raw, cut_at comma s raw /\ Forall2 trimmed_of raw toks.

(** *** Numbers

    A number is an IEEE 754 binary64 value.  Finite values are carried as
    the rational they denote (the sign of zero is not kept); every
    arithmetic result is rounded to the nearest representable value, ties
    to even, by [round64]. *)
Inductive number : Type :=
| NaN
| Inf (negative : bool)
| Fin (q : Q).

Definition pow2 (e : Z) : Q := Qpower 2 e.

(** The integer [L] with [2^L <= q < 2^(L+1)], for [q > 0]. *)
Definition ilog2 (q : Q) : Z :=
  let d := (Z.log2 (Qnum q) - Z.log2 (Zpos (Qden q)))%Z in
  if Qle_bool (pow2 d) q then d else (d - 1)%Z.

(** Nearest integer, ties to the even one. *)
Definition round_half_even (x : Q) : Z :=
  let f := Qfloor x in
  match Qcompare (x - inject_Z f)%Q (1 # 2) with
  | Lt => f
  | Gt => (f + 1)%Z
  | Eq => if Z.even f then f else (f + 1)%Z
  end.

(** Rounding of a positive rational: 53 significant bits, exponent of the
    last place not below -1074, overflow from [2^1024] on. *)
Definition round64_pos (q : Q) : option Q :=
  let e := Z.max (ilog2 q - 52) (-1074) in
  let m := round_half_even (q / pow2 e) in
  let y := (inject_Z m * pow2 e)%Q in
  if Qle_bool (pow2 1024) y then None else Some (Qred y).

Definition round64 (q : Q) : number :=
  let q := Qred q in
  match Qnum q with
  | Z0 => Fin 0
  | Zpos _ => match round64_pos q with Some y => Fin y | None => Inf false end
  | Zneg _ =>
      match round64_pos (Qopp q) with
      | Some y => Fin (Qopp y)
      | None => Inf true
      end
  end.

(** An integer that a binary64 holds exactly (an array length, a small
    literal). *)
Definition of_Z (z : Z) : number := Fin (inject_Z z).

(** [a + b]. *)
Definition add (a b : number) : number :=
  match a, b with
  | NaN, _ | _, NaN => NaN
  | Inf s, Inf t => if Bool.eqb s t then Inf s else NaN
  | Inf s, Fin _ | Fin _, Inf s => Inf s
  | Fin x, Fin y => round64 (x + y)%Q
  end.

Definition is_neg (q : Q) : bool :=
  match Qnum q with Zneg _ => true | _ => false end.

(** [a / b]. *)
Definition div (a b : number) : number :=
  match a, b with
  | NaN, _ | _, NaN => NaN
  | Inf _, Inf _ => NaN
  | Inf s, Fin y => Inf (xorb s (is_neg y))
  | Fin x, Inf _ => Fin 0
  | Fin x, Fin y =>
      if Qeq_bool y 0 then
        if Qeq_bool x 0 then NaN else Inf (is_neg x)
      else round64 (x / y)%Q
  end.

(** *** [Number.prototype.toFixed] *)

(** Steps 11.b and 11.c of [toFixed]: [n] printed with [f] digits after the
    decimal point. *)
Definition format_fixed (f : nat) (n : Z) : jstring :=
  let m := int_to_string n in
  match f with
  | O => m
  | S _ =>
      let k := List.length m in
      let m := if (k <=? f)%nat then repeat (digit 0) (f + 1 - k) ++ m else m in
      let k := List.length m in
      firstn (k - f) m ++ lit "." ++ skipn (k - f) m
  end.

(** The numeral of [n / 10] with one digit after the point, [n >= 0]: the
    digits of the integer part, a point, the digit of the tenths. *)
Definition one_decimal (n : Z) : jstring :=
  int_to_string (n / 10) ++ lit "." ++ [digit (n mod 10)].

(** Step 11.a: the integer [n] for which [n / 10^f - x] is closest to zero,
    the larger one of two. *)
Definition nearest_scaled (f : nat) (x : Q) : Z :=
  Qfloor (x * inject_Z (10 ^ Z.of_nat f) + (1 # 2))%Q.

(** [x.toFixed(f)].  [None] stands for the two cases left out: the
    RangeError for [f > 100], and [x >= 10^21], where the result is that
    of [Number::toString]. *)
Definition toFixed (f : nat) (x : number) : option jstring :=
  match x with
  | NaN => Some (lit "NaN")
  | Inf false => Some (lit "Infinity")
  | Inf true => Some (lit "-Infinity")
  | Fin q =>
      if (100 <? f)%nat then None
      else
        let s := if is_neg q then lit "-" else [] in
        let q := Qabs q in
        if Qle_bool (inject_Z (10 ^ 21)) q then None
        else Some (s ++ format_fixed f (nearest_scaled f q))
  end.

(** *** The same numbers in the Standard Library's binary64

    [SpecFloat] specifies IEEE 754 arithmetic on sign, mantissa and
    exponent; [of_spec_float] reads its values as numbers, to test
    [round64] against it. *)
Definition binary64_of_Z (z : Z) : spec_float :=
  binary_normalize 53 1024 z 0 false.

Definition of_spec_float (x : spec_float) : number :=
  match x with
  | S754_zero _ => Fin 0
  | S754_infinity s => Inf s
  | S754_nan => NaN
  | S754_finite s m e =>
      Fin (Qred ((if s then -1 else 1) * inject_Z (Zpos m) * pow2 e))
  end.

Definition number_eqb (a b : number) : bool :=
  match a, b with
  | NaN, NaN => true
  | Inf s, Inf t => Bool.eqb s t
  | Fin x, Fin y => Qeq_bool x y
  | _, _ => false
  end.

(** [a / b] and [a + b] agree with binary64 on the integers [a], [b]. *)
Definition agrees_with_binary64 (a b : Z) : bool :=
  number_eqb
    (of_spec_float (SFdiv 53 1024 (binary64_of_Z a) (binary64_of_Z b)))
    (div (of_Z a) (of_Z b))
  && number_eqb
       (of_spec_float (SFadd 53 1024 (binary64_of_Z a) (binary64_of_Z b)))
       (add (of_Z a) (of_Z b)).

End JS.

(* ================================================================== *)
(** ** Handler programs *)
(* ================================================================== *)

Module Async.

(** The two notification interfaces of the code base: [toast.error] and
    [toast.success] of the accommodation manager, and the object form
    [toast({ title, description, variant })] of the review components. *)
Inductive toast : Type :=
| ToastError (message : String.string)
| ToastSuccess (message : String.string)
| ToastObject (title description : String.string)
              (variant : option String.string).

(** The [{ error }] a database insert, update or delete resolves with. *)
Inductive DbResult : Type := DbOk | DbError.

(** Synchronous effects of a handler over a state with setters [U]. *)
Inductive effect (U : Type) : Type :=
| SetState (u : U)
| Notify (t : toast)
| ConsoleError
| Callback (name : String.string)
| PreventDefault.

Arguments SetState {U} u.
Arguments Notify {U} t.
Arguments ConsoleError {U}.
Arguments Callback {U} name.
Arguments PreventDefault {U}.

Section Programs.
(** [Req] are the operations a handler awaits, [Ans r] what the
    awaited promise of [r] resolves (or rejects) with. *)
Variable Req : Type.
Variable Ans : Req -> Type.
Variable U : Type.

(** The body of an (async) handler: effects in program order, each
    [await] a node whose continuation takes the answer.  An async
    function called in tail position without [await] is the rest of
    its caller's program. *)
Inductive prog : Type :=
| Done : prog
| Emit : effect U -> prog -> prog
| Await : forall r : Req, (Ans r -> prog) -> prog.

(** What an observer sees, oldest first. *)
Inductive entry : Type :=
| Issued (r : Req)
| Shown (t : toast)
| ConsoleLogged
| Invoked (name : String.string).

Variable S : Type.
Variable update : U -> S -> S.

Record world : Type := World { state : S; log : list entry }.

Definition record (e : entry) (w : world) : world :=
  World (state w) (log w ++ [e]).

Definition perform (e : effect U) (w : world) : world :=
  match e with
  | SetState u => World (update u (state w)) (log w)
  | Notify t => record (Shown t) w
  | ConsoleError => record ConsoleLogged w
  | Callback c => record (Invoked c) w
  | PreventDefault => w
  end.

(** Run a program up to its next [await]: the request is issued and the
    program is returned suspended on it. *)
Fixpoint settle (p : prog) (w : world) : world * prog :=
  match p with
  | Done => (w, Done)
  | Emit e k => settle k (perform e w)
  | Await r k => (record (Issued r) w, p)
  end.

(** The remote side: what the [n]-th awaited operation answers. *)
Definition remote : Type := nat -> forall r : Req, Ans r.

(** Run a program to its end against a remote side. *)
Fixpoint run (env : remote) (n : nat) (p : prog) (w : world) : world :=
  match p with
  | Done => w
  | Emit e k => run env n k (perform e w)
  | Await r k => run env (Datatypes.S n) (k (env n r)) (record (Issued r) w)
  end.

(** The remote operations of a log, and its notifications. *)
Definition calls (l : list entry) : list Req :=
  flat_map (fun e => match e with Issued r => [r] | _ => [] end) l.

Definition toasts (l : list entry) : list toast :=
  flat_map (fun e => match e with Shown t => [t] | _ => [] end) l.

(** A run of [p] shows exactly the toast [t]; a run shows no toast. *)
Definition shows (env : remote) (n : nat) (p : prog) (w : world) (t : toast)
  : Prop :=
  toasts (log (run env n p w)) = toasts (log w) ++ [t].

Definition silent (env : remote) (n : nat) (p : prog) (w : world) : Prop :=
  toasts (log (run env n p w)) = toasts (log w).

End Programs.

Arguments Done {Req Ans U}.
Arguments Emit {Req Ans U} _ _.
Arguments Await {Req Ans U} r _.
Arguments Issued {Req} r.
Arguments Shown {Req} t.
Arguments ConsoleLogged {Req}.
Arguments Invoked {Req} name.
Arguments World {Req S} state log.
Arguments state {Req S} w.
Arguments log {Req S} w.
Arguments record {Req S} e w.
Arguments perform {Req U S} update e w.
Arguments settle {Req Ans U S} update p w.
Arguments run {Req Ans U S} update env n p w.
Arguments calls {Req} l.
Arguments toasts {Req} l.
Arguments shows {Req Ans U S} update env n p w t.
Arguments silent {Req Ans U S} update env n p w.

End Async.

(* ================================================================== *)
(** ** components/admin/ManageAccommodations.tsx *)
(* ================================================================== *)

Module Accommodations.
Import JS Async.

(** [interface Accommodation]. *)
Record Accommodation : Type := {
  a_id : jstring;
  a_name : jstring;
  a_description : jstring;
  a_location : jstring;
  a_municipality : jstring;
  a_category : list jstring;
  a_image_url : jstring;
  a_contact_number : jstring;
  a_email : jstring;
  a_price_range : jstring;
  a_amenities : list jstring;
  a_rating : number
}.

Record Municipality : Type := { m_code : jstring; m_name : jstring }.
Record Barangay : Type := { b_code : jstring; b_name : jstring }.

(** The [formData] state: category and amenities are free text. *)
Record FormData : Type := {
  name : jstring;
  description : jstring;
  location : jstring;
  municipality : jstring;
  category : jstring;
  image_url : jstring;
  contact_number : jstring;
  email : jstring;
  price_range : jstring;
  amenities : jstring;
  rating : number
}.

(** [accommodationData] of [handleSubmit]: the form with category and
    amenities replaced by arrays. *)
Record AccommodationData : Type := {
  d_name : jstring;
  d_description : jstring;
  d_location : jstring;
  d_municipality : jstring;
  d_category : list jstring;
  d_image_url : jstring;
  d_contact_number : jstring;
  d_email : jstring;
  d_price_range : jstring;
  d_amenities : list jstring;
  d_rating : number
}.

(** The [useState] cells of the component. *)
Record State : Type := {
  accommodations : list Accommodation;
  isOpen : bool;
  editingId : option jstring;
  municipalities : list Municipality;
  barangays : list Barangay;
  formData : FormData
}.

Inductive Setter : Type :=
| setAccommodations (l : list Accommodation)
| setIsOpen (b : bool)
| setEditingId (i : option jstring)
| setMunicipalities (l : list Municipality)
| setBarangays (l : list Barangay)
| setFormData (f : FormData).

Definition update (u : Setter) (s : State) : State :=
  match u with
  | setAccommodations l =>
      Build_State l (isOpen s) (editingId s) (municipalities s)
                  (barangays s) (formData s)
  | setIsOpen b =>
      Build_State (accommodations s) b (editingId s) (municipalities s)
                  (barangays s) (formData s)
  | setEditingId i =>
      Build_State (accommodations s) (isOpen s) i (municipalities s)
                  (barangays s) (formData s)
  | setMunicipalities l =>
      Build_State (accommodations s) (isOpen s) (editingId s) l
                  (barangays s) (formData s)
  | setBarangays l =>
      Build_State (accommodations s) (isOpen s) (editingId s)
                  (municipalities s) l (formData s)
  | setFormData f =>
      Build_State (accommodations s) (isOpen s) (editingId s)
                  (municipalities s) (barangays s) f
  end.

(** *** The remote side *)

(** A [Response]: its [ok] flag and its body, not yet parsed. *)
Record Response : Type := { ok : bool; body : jstring }.

(** A record of the geographic service, reduced to the two fields the
    component reads. *)
Record GeoRecord : Type := { g_code : jstring; g_name : jstring }.

(** What [response.json()] resolves with: a falsy value, an array of
    records, or any other value, on which the array operations of the
    handlers throw. *)
Inductive JsonValue : Type :=
| JFalsy
| JArray (l : list GeoRecord)
| JOther.

(** The [{ data, error }] pair of a [select]. *)
Record SelectResult : Type := {
  data : option (list Accommodation);
  error : bool
}.

Inductive Request : Type :=
| SelectAccommodations
| UpdateAccommodation (d : AccommodationData) (id : jstring)
| InsertAccommodation (d : AccommodationData)
| DeleteAccommodation (id : jstring)
| Fetch (url : jstring)
| FetchBoth (url1 url2 : jstring)
| ReadJson (r : Response)
| ReadJsonBoth (r1 r2 : Response)
| Confirm (message : String.string).

(** A rejected promise is [None]. *)
Definition Answer (r : Request) : Type :=
  match r with
  | SelectAccommodations => SelectResult
  | UpdateAccommodation _ _ | InsertAccommodation _
  | DeleteAccommodation _ => DbResult
  | Fetch _ => option Response
  | FetchBoth _ _ => option (Response * Response)
  | ReadJson _ => option JsonValue
  | ReadJsonBoth _ _ => option (JsonValue * JsonValue)
  | Confirm _ => bool
  end.

Definition Prog : Type := prog Request Answer Setter.

Definition set (u : Setter) (k : Prog) : Prog := Emit (SetState u) k.

Section Handlers.
(** [a.localeCompare(b)]: negative, zero or positive; it depends on the
    locale of the browser. *)
Variable localeCompare : jstring -> jstring -> Z.

(** [arr.sort(cmp)]: the sort is stable; [x] stood before all of [l]. *)
Fixpoint insert_sorted {A} (cmp : A -> A -> Z) (x : A) (l : list A)
  : list A :=
  match l with
  | [] => [x]
  | y :: l' =>
      if (cmp y x <? 0)%Z then y :: insert_sorted cmp x l' else x :: l
  end.

Definition sort {A} (cmp : A -> A -> Z) (l : list A) : list A :=
  fold_right (insert_sorted cmp) [] l.

Definition fetchAccommodations : Prog :=
  Await SelectAccommodations (fun r =>
    match error r, data r with
    | false, Some d => set (setAccommodations d) Done
    | _, _ => Done
    end).

Definition municipalities_url : jstring :=
  lit "https://psgc.gitlab.io/api/provinces/050500000/municipalities/".
Definition cities_url : jstring :=
  lit "https://psgc.gitlab.io/api/provinces/050500000/cities/".

(** [data || []], then the spread or [.map] of it: [None] when that
    throws. *)
Definition records (v : JsonValue) : option (list GeoRecord) :=
  match v with
  | JFalsy => Some []
  | JArray l => Some l
  | JOther => None
  end.

Definition fetchMunicipalities : Prog :=
  let caught : Prog :=
    Emit ConsoleError
      (Emit (Notify (ToastError "Failed to load municipalities and cities"))
         Done) in
  Await (FetchBoth municipalities_url cities_url) (fun res =>
    match res with
    | None => caught
    | Some (muniRes, cityRes) =>
        Await (ReadJsonBoth muniRes cityRes) (fun js =>
          match js with
          | None => caught
          | Some (muniData, cityData) =>
              match records muniData, records cityData with
              | Some ms, Some cs =>
                  let merged := ms ++ cs in
                  let sorted :=
                    sort (fun a b => localeCompare (m_name a) (m_name b))
                      (map (fun m => Build_Municipality (g_code m) (g_name m))
                           merged) in
                  set (setMunicipalities sorted) Done
              | _, _ => caught
              end
          end)
    end).

Definition municipality_barangays_url (code : jstring) : jstring :=
  lit "https://psgc.gitlab.io/api/municipalities/" ++ code
    ++ lit "/barangays/".
Definition city_barangays_url (code : jstring) : jstring :=
  lit "https://psgc.gitlab.io/api/cities/" ++ code ++ lit "/barangays/".

Definition fetchBarangays (code : jstring) : Prog :=
  let caught : Prog :=
    Emit ConsoleError
      (Emit (Notify (ToastError "Failed to load barangays")) Done) in
  let parse (response : Response) : Prog :=
    Await (ReadJson response) (fun js =>
      match js with
      | None => caught
      | Some data =>
          match records data with
          | Some bs =>
              let sorted :=
                sort (fun a b => localeCompare (b_name a) (b_name b))
                  (map (fun b => Build_Barangay (g_code b) (g_name b)) bs) in
              set (setBarangays sorted) Done
          | None => caught
          end
      end) in
  Await (Fetch (municipality_barangays_url code)) (fun res =>
    match res with
    | None => caught
    | Some response =>
        if negb (ok response) then
          Await (Fetch (city_barangays_url code)) (fun res2 =>
            match res2 with
            | None => caught
            | Some response2 => parse response2
            end)
        else parse response
    end).

(** The barangay set a response with the records [bs] gives. *)
Definition barangaysOf (bs : list GeoRecord) : list Barangay :=
  sort (fun a b => localeCompare (b_name a) (b_name b))
    (map (fun b => Build_Barangay (g_code b) (g_name b)) bs).

Definition municipalitiesOf (ms : list GeoRecord) : list Municipality :=
  sort (fun a b => localeCompare (m_name a) (m_name b))
    (map (fun m => Build_Municipality (g_code m) (g_name m)) ms).

Definition handleMunicipalityChange (s : State) (code : jstring) : Prog :=
  let selected :=
    find (fun m => str_eqb (m_code m) code) (municipalities s) in
  let f := formData s in
  set (setFormData
         {| name := name f; description := description f;
            location := [];
            municipality :=
              match selected with Some m => m_name m | None => [] end;
            category := category f; image_url := image_url f;
            contact_number := contact_number f; email := email f;
            price_range := price_range f; amenities := amenities f;
            rating := rating f |})
    (set (setBarangays [])
       (if truthy code then fetchBarangays code else Done)).

Definition emptyForm : FormData :=
  {| name := []; description := []; location := []; municipality := [];
     category := []; image_url := []; contact_number := []; email := [];
     price_range := []; amenities := []; rating := of_Z 0 |}.

Definition resetForm (k : Prog) : Prog :=
  set (setFormData emptyForm)
    (set (setBarangays []) (set (setEditingId None) k)).

Definition accommodationData (f : FormData) : AccommodationData :=
  {| d_name := name f; d_description := description f;
     d_location := location f; d_municipality := municipality f;
     d_category := map trim (split comma (category f));
     d_image_url := image_url f; d_contact_number := contact_number f;
     d_email := email f; d_price_range := price_range f;
     d_amenities := map trim (split comma (amenities f));
     d_rating := rating f |}.

(** [if (editingId)]: [null] and the empty string are falsy. *)
Definition editing (s : State) : option jstring :=
  match editingId s with
  | Some i => if truthy i then Some i else None
  | None => None
  end.

Definition handleSubmit (s : State) : Prog :=
  Emit PreventDefault
    (let d := accommodationData (formData s) in
     match editing s with
     | Some i =>
         Await (UpdateAccommodation d i) (fun r =>
           match r with
           | DbError =>
               Emit (Notify (ToastError "Failed to update accommodation"))
                 Done
           | DbOk =>
               Emit (Notify
                       (ToastSuccess "Accommodation updated successfully"))
                 (set (setIsOpen false) (resetForm fetchAccommodations))
           end)
     | None =>
         Await (InsertAccommodation d) (fun r =>
           match r with
           | DbError =>
               Emit (Notify (ToastError "Failed to add accommodation")) Done
           | DbOk =>
               Emit (Notify
                       (ToastSuccess "Accommodation added successfully"))
                 (set (setIsOpen false) (resetForm fetchAccommodations))
           end)
     end).

Definition handleEdit (s : State) (accommodation : Accommodation) : Prog :=
  set (setFormData
         {| name := a_name accommodation;
            description := a_description accommodation;
            location := a_location accommodation;
            municipality := a_municipality accommodation;
            category := join (lit ", ") (a_category accommodation);
            image_url := a_image_url accommodation;
            contact_number := a_contact_number accommodation;
            email := a_email accommodation;
            price_range := a_price_range accommodation;
            amenities := join (lit ", ") (a_amenities accommodation);
            rating := a_rating accommodation |})
    (set (setEditingId (Some (a_id accommodation)))
       (set (setIsOpen true)
          (if truthy (a_municipality accommodation) then
             match find (fun m =>
                           str_eqb (m_name m) (a_municipality accommodation))
                        (municipalities s) with
             | Some muni => fetchBarangays (m_code muni)
             | None => Done
             end
           else Done))).

Definition handleDelete (id : jstring) : Prog :=
  Await (Confirm "Are you sure you want to delete this accommodation?")
    (fun yes =>
       if negb yes then Done
       else
         Await (DeleteAccommodation id) (fun r =>
           match r with
           | DbError =>
               Emit (Notify (ToastError "Failed to delete accommodation"))
                 Done
           | DbOk =>
               Emit (Notify
                       (ToastSuccess "Accommodation deleted successfully"))
                 fetchAccommodations
           end)).

(** *** The component as an event-driven system

    Handlers run to their first [await] when the user acts; a suspended
    handler goes on, up to its next [await], when the operation it waits
    for resolves.  Any number of handlers can be suspended at a time. *)

Inductive Field : Type :=
| FName | FDescription | FCategory | FAmenities | FPriceRange
| FImageUrl | FContactNumber | FEmail.

(** [{ ...formData, field: v }] of the inputs' [onChange]. *)
Definition withField (f : FormData) (fld : Field) (v : jstring)
  : FormData :=
  {| name := match fld with FName => v | _ => name f end;
     description :=
       match fld with FDescription => v | _ => description f end;
     location := location f;
     municipality := municipality f;
     category := match fld with FCategory => v | _ => category f end;
     image_url := match fld with FImageUrl => v | _ => image_url f end;
     contact_number :=
       match fld with FContactNumber => v | _ => contact_number f end;
     email := match fld with FEmail => v | _ => email f end;
     price_range :=
       match fld with FPriceRange => v | _ => price_range f end;
     amenities := match fld with FAmenities => v | _ => amenities f end;
     rating := rating f |}.

Definition withRating (f : FormData) (v : number) : FormData :=
  {| name := name f; description := description f;
     location := location f; municipality := municipality f;
     category := category f; image_url := image_url f;
     contact_number := contact_number f; email := email f;
     price_range := price_range f; amenities := amenities f;
     rating := v |}.

(** The location dropdown's [onValueChange]. *)
Definition handleLocationChange (s : State) (code : jstring) : Prog :=
  let barangay := find (fun b => str_eqb (b_code b) code) (barangays s) in
  let f := formData s in
  set (setFormData
         {| name := name f; description := description f;
            location :=
              match barangay with Some b => b_name b | None => [] end;
            municipality := municipality f;
            category := category f; image_url := image_url f;
            contact_number := contact_number f; email := email f;
            price_range := price_range f; amenities := amenities f;
            rating := rating f |})
    Done.

Inductive Action : Type :=
| Mount
| ClickAdd
| OpenChange (open : bool)
| Cancel
| ChangeField (fld : Field) (v : jstring)
| ChangeRating (v : number)
| SelectMunicipality (code : jstring)
| SelectLocation (code : jstring)
| Submit
| Edit (accommodation : Accommodation)
| Delete (id : jstring).

(** The handler calls an action makes, in order. *)
Definition handlers (s : State) (a : Action) : list Prog :=
  match a with
  | Mount => [fetchAccommodations; fetchMunicipalities]
  | ClickAdd => [resetForm Done]
  | OpenChange b => [set (setIsOpen b) Done]
  | Cancel => [set (setIsOpen false) (resetForm Done)]
  | ChangeField fld v =>
      [set (setFormData (withField (formData s) fld v)) Done]
  | ChangeRating v =>
      [set (setFormData (withRating (formData s) v)) Done]
  | SelectMunicipality code => [handleMunicipalityChange s code]
  | SelectLocation code => [handleLocationChange s code]
  | Submit => [handleSubmit s]
  | Edit accommodation => [handleEdit s accommodation]
  | Delete id => [handleDelete id]
  end.

(** A suspended handler and the action that started it. *)
Record Task : Type := { origin : Action; pending : Prog }.

Record System : Type := {
  now : world Request State;
  tasks : list Task
}.

Definition suspend (a : Action) (p : Prog) (ts : list Task) : list Task :=
  match p with
  | Await _ _ => ts ++ [Build_Task a p]
  | _ => ts
  end.

Definition start (a : Action) (sys : System) (p : Prog) : System :=
  let (w, p') := settle update p (now sys) in
  Build_System w (suspend a p' (tasks sys)).

Definition dispatch (a : Action) (sys : System) : System :=
  fold_left (start a) (handlers (state (now sys)) a) sys.

(** An answer for whatever operation is waited for. *)
Definition Answers : Type := forall r : Request, Answer r.

Fixpoint remove_nth {A} (i : nat) (l : list A) : list A :=
  match i, l with
  | _, [] => []
  | O, _ :: l' => l'
  | Datatypes.S i', x :: l' => x :: remove_nth i' l'
  end.

(** The [i]-th suspended handler gets its answer. *)
Definition resolve (i : nat) (ans : Answers) (sys : System) : System :=
  match nth_error (tasks sys) i with
  | Some (Build_Task a (Await r k)) =>
      let (w, p') := settle update (k (ans r)) (now sys) in
      Build_System w (suspend a p' (remove_nth i (tasks sys)))
  | _ => sys
  end.

Inductive Step : Type :=
| User (a : Action)
| Resolve (i : nat) (ans : Answers).

Definition step (sys : System) (l : Step) : System :=
  match l with
  | User a => dispatch a sys
  | Resolve i ans => resolve i ans sys
  end.

Definition steps (sys : System) (tr : list Step) : System :=
  fold_left step tr sys.

(** The actions that call [fetchBarangays]. *)
Definition loads_barangays (a : Action) : bool :=
  match a with
  | SelectMunicipality _ | Edit _ => true
  | _ => false
  end.

(** A barangay fetch resolves at this step: the body of its response
    arrives at a handler that called [fetchBarangays]. *)
Definition barangays_resolve (sys : System) (l : Step) : bool :=
  match l with
  | User _ => false
  | Resolve i _ =>
      match nth_error (tasks sys) i with
      | Some (Build_Task a (Await (ReadJson _) _)) => loads_barangays a
      | _ => false
      end
  end.

(** No barangay fetch resolves along the trace. *)
Fixpoint unresolved (sys : System) (tr : list Step) : bool :=
  match tr with
  | [] => true
  | l :: tr' =>
      negb (barangays_resolve sys l) && unresolved (step sys l) tr'
  end.

(** *** Who can fill the barangay set

    [calm loader p]: the program [p] never stores a non-empty barangay
    set, except, when [loader] is set, in the last stretch that follows the
    parsing of a response. *)

Definition is_json (r : Request) : bool :=
  match r with ReadJson _ => true | _ => false end.

Definition keeps_empty (e : effect Setter) : Prop :=
  match e with
  | SetState (setBarangays (_ :: _)) => False
  | _ => True
  end.

(** [p] finishes without another [await]. *)
Fixpoint final (p : Prog) : Prop :=
  match p with
  | Done => True
  | Emit _ k => final k
  | Await _ _ => False
  end.

Fixpoint calm (loader : bool) (p : Prog) : Prop :=
  match p with
  | Done => True
  | Emit e k => keeps_empty e /\ calm loader k
  | Await r k =>
      (loader = true /\ is_json r = true /\ forall x, final (k x))
      \/ (forall x, calm loader (k x))
  end.

(** Every suspended handler is calm, a loader if its action calls
    [fetchBarangays]. *)
Definition calm_tasks (sys : System) : Prop :=
  Forall (fun t => calm (loads_barangays (origin t)) (pending t)) (tasks sys).

End Handlers.

(** The toasts of the component. *)
Definition load_failed : toast := ToastError "Failed to load barangays".
Definition municipalities_failed : toast :=
  ToastError "Failed to load municipalities and cities".
Definition submitted (updating : bool) (r : DbResult) : toast :=
  match updating, r with
  | true, DbOk => ToastSuccess "Accommodation updated successfully"
  | true, DbError => ToastError "Failed to update accommodation"
  | false, DbOk => ToastSuccess "Accommodation added successfully"
  | false, DbError => ToastError "Failed to add accommodation"
  end.
Definition deleted (r : DbResult) : toast :=
  match r with
  | DbOk => ToastSuccess "Accommodation deleted successfully"
  | DbError => ToastError "Failed to delete accommodation"
  end.
Definition confirm_delete : Request :=
  Confirm "Are you sure you want to delete this accommodation?".

Definition initial : State :=
  {| accommodations := []; isOpen := false; editingId := None;
     municipalities := []; barangays := []; formData := emptyForm |}.

Definition boot : System :=
  {| now := World initial []; tasks := [] |}.

End Accommodations.

(* ================================================================== *)
(** ** components/reviews/ReviewForm.tsx *)
(* ================================================================== *)

Module ReviewForm.
Import JS Async.

(** [ReviewFormProps]; the callback [onReviewSubmitted] is the effect
    [Callback "onReviewSubmitted"]. *)
Record Props : Type := {
  spotId : jstring;
  userId : jstring;
  hasUserReviewed : bool
}.

(** The draft.  [rating] holds 0 or the index of a star. *)
Record State : Type := {
  rating : Z;
  hoveredRating : Z;
  comment : jstring;
  isSubmitting : bool
}.

Inductive Setter : Type :=
| setRating (r : Z)
| setHoveredRating (r : Z)
| setComment (c : jstring)
| setIsSubmitting (b : bool).

Definition update (u : Setter) (s : State) : State :=
  match u with
  | setRating r => Build_State r (hoveredRating s) (comment s) (isSubmitting s)
  | setHoveredRating r => Build_State (rating s) r (comment s) (isSubmitting s)
  | setComment c => Build_State (rating s) (hoveredRating s) c (isSubmitting s)
  | setIsSubmitting b => Build_State (rating s) (hoveredRating s) (comment s) b
  end.

(** The row handed to [insert]; a [null] comment is [None]. *)
Record Row : Type := {
  spot_id : jstring;
  user_id : jstring;
  row_rating : Z;
  row_comment : option jstring
}.

Inductive Request : Type := InsertReview (row : Row).
Definition Answer (r : Request) : Type := DbResult.

Definition Prog : Type := prog Request Answer Setter.

Definition set (u : Setter) (k : Prog) : Prog := Emit (SetState u) k.

(** [s || null]. *)
Definition or_null (s : jstring) : option jstring :=
  if truthy s then Some s else None.

Definition handleSubmit (p : Props) (s : State) : Prog :=
  Emit PreventDefault
    (if (rating s =? 0)%Z then
       Emit (Notify (ToastObject "Error" "Please select a rating"
                       (Some "destructive"%string)))
         Done
     else
       set (setIsSubmitting true)
         (Await (InsertReview
                   {| spot_id := spotId p; user_id := userId p;
                      row_rating := rating s;
                      row_comment := or_null (trim (comment s)) |})
            (fun r =>
               match r with
               | DbError =>
                   Emit (Notify (ToastObject "Error" "Failed to submit review"
                                   (Some "destructive"%string)))
                     (set (setIsSubmitting false) Done)
               | DbOk =>
                   Emit (Notify (ToastObject "Success"
                                   "Review submitted successfully" None))
                     (set (setRating 0)
                        (set (setComment [])
                           (Emit (Callback "onReviewSubmitted")
                              (set (setIsSubmitting false) Done))))
               end))).

(** The [disabled] attribute of the submit button. *)
Definition submitDisabled (p : Props) (s : State) : bool :=
  isSubmitting s || (rating s =? 0)%Z || hasUserReviewed p.

Definition initial : State :=
  {| rating := 0; hoveredRating := 0; comment := []; isSubmitting := false |}.

Definition select_a_rating : toast :=
  ToastObject "Error" "Please select a rating" (Some "destructive"%string).
Definition submit_failed : toast :=
  ToastObject "Error" "Failed to submit review" (Some "destructive"%string).
Definition submit_succeeded : toast :=
  ToastObject "Success" "Review submitted successfully" None.

(** The row a submission sends, spelled out: the comment is trimmed and
    an empty result becomes [null]. *)
Definition sent_row (p : Props) (s : State) : Row :=
  {| spot_id := spotId p; user_id := userId p; row_rating := rating s;
     row_comment :=
       match trim (comment s) with
       | [] => None
       | c :: t => Some (c :: t)
       end |}.

End ReviewForm.

(* ================================================================== *)
(** ** components/reviews/ReviewList.tsx *)
(* ================================================================== *)

Module ReviewList.
Import JS Async.

(** [interface Review]. *)
Record Review : Type := {
  id : jstring;
  rating : number;
  comment : option jstring;
  created_at : jstring;
  user_id : jstring;
  user_name : jstring
}.

(** [ReviewListProps]; [fetchReviews] is the effect
    [Callback "fetchReviews"]. *)
Record Props : Type := {
  currentUserId : option jstring;
  reviews : list Review;
  isLoading : bool
}.

(** The component keeps no state of its own. *)
Inductive Setter : Type := .
Definition update (u : Setter) (s : unit) : unit := s.

Inductive Request : Type := DeleteReview (reviewId : jstring).
Definition Answer (r : Request) : Type := DbResult.

Definition Prog : Type := prog Request Answer Setter.

Definition handleDeleteReview (reviewId : jstring) : Prog :=
  Await (DeleteReview reviewId) (fun r =>
    match r with
    | DbError =>
        Emit (Notify (ToastObject "Error" "Failed to delete review"
                        (Some "destructive"%string)))
          Done
    | DbOk =>
        Emit (Notify (ToastObject "Success" "Review deleted successfully"
                        None))
          (Emit (Callback "fetchReviews") Done)
    end).

Definition review_deleted (r : DbResult) : toast :=
  match r with
  | DbOk => ToastObject "Success" "Review deleted successfully" None
  | DbError =>
      ToastObject "Error" "Failed to delete review" (Some "destructive"%string)
  end.

(** [reviews.reduce((sum, r) => sum + r.rating, 0) / reviews.length]. *)
Definition averageRating (rs : list Review) : number :=
  div (fold_left (fun sum r => add sum (rating r)) rs (of_Z 0))
      (of_Z (Z.of_nat (List.length rs))).

(** The arithmetic mean of integer ratings, exactly. *)
Definition total (zs : list Z) : Z := fold_right Z.add 0%Z zs.

Definition mean (zs : list Z) : Q :=
  inject_Z (total zs) / inject_Z (Z.of_nat (List.length zs)).

(** The text next to the star: [averageRating.toFixed(1)]. *)
Definition averageText (rs : list Review) : option jstring :=
  toFixed 1 (averageRating rs).

(** The noun of the count. *)
Definition noun (rs : list Review) : jstring :=
  if (List.length rs =? 1)%nat then lit "review" else lit "reviews".

(** The text of the count: [({reviews.length} {noun})]. *)
Definition countText (rs : list Review) : jstring :=
  lit "(" ++ int_to_string (Z.of_nat (List.length rs)) ++ lit " "
    ++ noun rs ++ lit ")".

(** [currentUserId === review.user_id]. *)
Definition canDelete (p : Props) (r : Review) : bool :=
  match currentUserId p with
  | Some u => str_eqb u (user_id r)
  | None => false
  end.

(** What the component renders. *)
Inductive View : Type :=
| Loading
| NoReviews
| Listing (average : option jstring) (count : jstring)
          (cards : list (Review * bool)).

Definition render (p : Props) : View :=
  if isLoading p then Loading
  else
    match reviews p with
    | [] => NoReviews
    | _ :: _ =>
        Listing (averageText (reviews p)) (countText (reviews p))
                (map (fun r => (r, canDelete p r)) (reviews p))
    end.

End ReviewList.

(* ================================================================== *)
(** ** Sample data *)
(* ================================================================== *)

Module Samples.
Import JS Async Accommodations.

(** Comparison by code units, standing for [localeCompare]. *)
Fixpoint unitCompare (a b : jstring) : Z :=
  match a, b with
  | [], [] => 0
  | [], _ :: _ => -1
  | _ :: _, [] => 1
  | x :: a', y :: b' =>
      match N.compare x y with
      | Lt => -1
      | Gt => 1
      | Eq => unitCompare a' b'
      end
  end.

Definition daraga : Municipality :=
  {| m_code := lit "050503000"; m_name := lit "Daraga" |}.
Definition legazpi : Municipality :=
  {| m_code := lit "050506000"; m_name := lit "Legazpi City" |}.

Definition anislag : Barangay :=
  {| b_code := lit "050503001"; b_name := lit "Anislag" |}.
Definition bitano : Barangay :=
  {| b_code := lit "050506010"; b_name := lit "Bitano" |}.

(** A listing in Daraga. *)
Definition inn : Accommodation :=
  {| a_id := lit "7"; a_name := lit "Cagsawa Inn"; a_description := [];
     a_location := lit "Anislag"; a_municipality := lit "Daraga";
     a_category := [lit "Budget"; lit "Inn"]; a_image_url := [];
     a_contact_number := []; a_email := []; a_price_range := [];
     a_amenities := [lit "WiFi"]; a_rating := of_Z 4 |}.

(** Municipalities are loaded; the barangay set is empty. *)
Definition loaded : State :=
  {| accommodations := [inn]; isOpen := false; editingId := None;
     municipalities := [daraga; legazpi]; barangays := [];
     formData := emptyForm |}.

(** The same with the barangays of Legazpi left from an earlier edit whose
    dialog was closed. *)
Definition stale : State :=
  {| accommodations := [inn]; isOpen := false; editingId := None;
     municipalities := [daraga; legazpi]; barangays := [bitano];
     formData := emptyForm |}.

(** A form in progress. *)
Definition draft : FormData :=
  {| name := lit "Casa"; description := []; location := lit "Bitano";
     municipality := lit "Legazpi City"; category := lit "a, b ,,c ,";
     image_url := []; contact_number := []; email := [];
     price_range := []; amenities := lit "WiFi,Pool, WiFi"; rating := of_Z 4 |}.

Definition drafting : State :=
  {| accommodations := [inn]; isOpen := true; editingId := None;
     municipalities := [daraga; legazpi]; barangays := [bitano];
     formData := draft |}.

(** Every request fails: fetches are rejected, the database answers with
    an error, the confirmation is declined. *)
Definition failing : Answers :=
  fun r =>
    match r return Answer r with
    | SelectAccommodations => {| data := None; error := true |}
    | UpdateAccommodation _ _ => DbError
    | InsertAccommodation _ => DbError
    | DeleteAccommodation _ => DbError
    | Fetch _ => None
    | FetchBoth _ _ => None
    | ReadJson _ => None
    | ReadJsonBoth _ _ => None
    | Confirm _ => false
    end.

(** Every request succeeds; the geographic service answers every barangay
    request with the barangay Anislag. *)
Definition succeeding : Answers :=
  fun r =>
    match r return Answer r with
    | SelectAccommodations => {| data := Some [inn]; error := false |}
    | UpdateAccommodation _ _ => DbOk
    | InsertAccommodation _ => DbOk
    | DeleteAccommodation _ => DbOk
    | Fetch _ => Some {| ok := true; body := [] |}
    | FetchBoth _ _ =>
        Some ({| ok := true; body := [] |}, {| ok := true; body := [] |})
    | ReadJson _ =>
        Some (JArray [{| g_code := lit "050503001"; g_name := lit "Anislag" |}])
    | ReadJsonBoth _ _ => Some (JArray [], JArray [])
    | Confirm _ => true
    end.

(** Reviews with the given ratings. *)
Definition rated (z : Z) : ReviewList.Review :=
  {| ReviewList.id := lit "r"; ReviewList.rating := of_Z z;
     ReviewList.comment := None; ReviewList.created_at := lit "2025-01-01";
     ReviewList.user_id := lit "u"; ReviewList.user_name := lit "Ana" |}.

Definition five_four_three : list ReviewList.Review :=
  [rated 5; rated 4; rated 3].

(** Twenty ratings of mean 4.35. *)
Definition mean_4_35 : list ReviewList.Review :=
  repeat (rated 4) 13 ++ repeat (rated 5) 7.

Definition offline : remote Request Answer := fun _ => failing.
Definition online : remote Request Answer := fun _ => succeeding.

End Samples.

(* ================================================================== *)
(** ** What a handler can do on any path *)
(* ================================================================== *)

Module Invariants.
Import Async.

Section Always.
Variables (Req : Type) (Ans : Req -> Type) (U : Type).
Variable P : effect U -> Prop.
Variable Q : Req -> Prop.

(** Whatever the remote side answers, [p] emits only effects in [P] and
    awaits only requests in [Q]. *)
Fixpoint always (p : prog Req Ans U) : Prop :=
  match p with
  | Done => True
  | Emit e k => P e /\ always k
  | Await r k => Q r /\ forall x, always (k x)
  end.

End Always.

Arguments always {Req Ans U} P Q p.

End Invariants.

(* ================================================================== *)
(** ** ManageAccommodations.tsx: what the form renders *)
(* ================================================================== *)

Module AccommodationsView.
Import JS Async Accommodations.

(** The [value] of the municipality dropdown:
    [municipalities.find((m) => m.name === formData.municipality)?.code || ""]. *)
Definition municipalityValue (s : State) : jstring :=
  match find (fun m => str_eqb (m_name m) (municipality (formData s)))
             (municipalities s) with
  | Some m => m_code m
  | None => []
  end.

(** The [value] of the location dropdown. *)
Definition locationValue (s : State) : jstring :=
  match find (fun b => str_eqb (b_name b) (location (formData s)))
             (barangays s) with
  | Some b => b_code b
  | None => []
  end.

(** [disabled={!barangays.length}]. *)
Definition locationDisabled (s : State) : bool :=
  match barangays s with [] => true | _ :: _ => false end.

Definition locationPlaceholder (s : State) : String.string :=
  if locationDisabled s then "Select municipality first" else "Location".

(** The title of the dialog and the label of its submit button. *)
Definition dialogTitle (s : State) : String.string :=
  match editing s with
  | Some _ => "Edit Accommodation"
  | None => "Add New Accommodation"
  end.

Definition submitLabel (s : State) : String.string :=
  match editing s with
  | Some _ => "Update Accommodation"
  | None => "Add Accommodation"
  end.

(** A comparator is consistent when a pair that is not in order is in order
    the other way round. *)
Definition consistent (cmp : jstring -> jstring -> Z) : Prop :=
  forall x y, (0 <= cmp x y)%Z -> (cmp y x <= 0)%Z.

(** Neighbours are in the order of the comparator. *)
Definition in_order {A} (cmp : A -> A -> Z) (l : list A) : Prop :=
  Sorted (fun a b => (cmp a b <= 0)%Z) l.

Definition municipalities_in_order (cmp : jstring -> jstring -> Z)
    (l : list Municipality) : Prop :=
  in_order (fun a b => cmp (m_name a) (m_name b)) l.

Definition barangays_in_order (cmp : jstring -> jstring -> Z)
    (l : list Barangay) : Prop :=
  in_order (fun a b => cmp (b_name a) (b_name b)) l.

(** Both dropdown lists of a state are in name order. *)
Definition lists_in_order (cmp : jstring -> jstring -> Z) (s : State)
  : Prop :=
  municipalities_in_order cmp (municipalities s)
  /\ barangays_in_order cmp (barangays s).

(** An effect that stores a dropdown list stores it in name order. *)
Definition stores_in_order (cmp : jstring -> jstring -> Z)
    (e : effect Setter) : Prop :=
  match e with
  | SetState (setMunicipalities l) => municipalities_in_order cmp l
  | SetState (setBarangays l) => barangays_in_order cmp l
  | _ => True
  end.

(** A token that [split] and [trim] leave as it is. *)
Definition clean (t : jstring) : Prop :=
  ~ In comma t /\ begins_white t = false /\ ends_white t = false.

(** A record as the store holds it, in the shape of a submission. *)
Definition data_of (a : Accommodation) : AccommodationData :=
  {| d_name := a_name a; d_description := a_description a;
     d_location := a_location a; d_municipality := a_municipality a;
     d_category := a_category a; d_image_url := a_image_url a;
     d_contact_number := a_contact_number a; d_email := a_email a;
     d_price_range := a_price_range a; d_amenities := a_amenities a;
     d_rating := a_rating a |}.

(** The list after a refresh: the rows of the answer when there is no
    error and the data is not null, the list as it was otherwise. *)
Definition refreshed (r : SelectResult) (old : list Accommodation)
  : list Accommodation :=
  match error r, data r with
  | false, Some d => d
  | _, _ => old
  end.

(** The actions of working on the open form. *)
Definition edits_form (a : Action) : bool :=
  match a with
  | ChangeField _ _ | ChangeRating _ | SelectMunicipality _
  | SelectLocation _ | OpenChange _ => true
  | _ => false
  end.

(** A handler that stores lists only in name order, a world whose lists are
    in name order, a system whose suspended handlers are such handlers. *)
Definition ordered_prog (cmp : jstring -> jstring -> Z) : Prog -> Prop :=
  Invariants.always (Ans := Answer) (stores_in_order cmp) (fun _ => True).

Definition ordered_world (cmp : jstring -> jstring -> Z)
    (w : world Request State) : Prop :=
  lists_in_order cmp (state w).

Definition ordered_tasks (cmp : jstring -> jstring -> Z) (sys : System)
  : Prop :=
  Forall (fun t => ordered_prog cmp (pending t)) (tasks sys).

(** The municipality and the barangay of a geographic record. *)
Definition municipality_of (g : GeoRecord) : Municipality :=
  {| m_code := g_code g; m_name := g_name g |}.

Definition barangay_of (g : GeoRecord) : Barangay :=
  {| b_code := g_code g; b_name := g_name g |}.

End AccommodationsView.

(* ================================================================== *)
(** ** ReviewForm.tsx: the stars, the button and the form as a system *)
(* ================================================================== *)

Module ReviewFormEvents.
Import JS Async ReviewForm.

(** The star buttons: [[1, 2, 3, 4, 5].map((star) => ...)]. *)
Definition stars : list Z := [1; 2; 3; 4; 5]%Z.

(** [hoveredRating || rating]. *)
Definition level (s : State) : Z :=
  if (hoveredRating s =? 0)%Z then rating s else hoveredRating s.

(** A star is drawn filled: [star <= (hoveredRating || rating)]. *)
Definition filled (s : State) (star : Z) : bool := (star <=? level s)%Z.

(** The text of the submit button. *)
Definition buttonLabel (p : Props) (s : State) : String.string :=
  if hasUserReviewed p then "Already Reviewed"
  else if isSubmitting s then "Submitting..."
  else "Submit Review".

(** What the user can do; a star is addressed by its position among the
    buttons. *)
Inductive Action : Type :=
| ClickStar (i : nat)
| EnterStar (i : nat)
| LeaveStar (i : nat)
| ChangeComment (value : jstring)
| Submit.

Definition handlers (p : Props) (s : State) (a : Action) : Prog :=
  match a with
  | ClickStar i =>
      match nth_error stars i with
      | Some star => set (setRating star) Done
      | None => Done
      end
  | EnterStar i =>
      match nth_error stars i with
      | Some star => set (setHoveredRating star) Done
      | None => Done
      end
  | LeaveStar i =>
      match nth_error stars i with
      | Some _ => set (setHoveredRating 0) Done
      | None => Done
      end
  | ChangeComment value => set (setComment value) Done
  | Submit => handleSubmit p s
  end.

(** The form with its submissions in flight. *)
Record System : Type := {
  now : world Request State;
  waiting : list Prog
}.

Definition suspend (k : Prog) (ps : list Prog) : list Prog :=
  match k with
  | Await _ _ => ps ++ [k]
  | _ => ps
  end.

Definition dispatch (p : Props) (a : Action) (sys : System) : System :=
  let (w, k) := settle update (handlers p (state (now sys)) a) (now sys) in
  {| now := w; waiting := suspend k (waiting sys) |}.

(** The [i]-th insert in flight resolves with [r]. *)
Definition resolve (i : nat) (r : DbResult) (sys : System) : System :=
  match nth_error (waiting sys) i with
  | Some (Await q k) =>
      let (w, k') := settle update (k r) (now sys) in
      {| now := w;
         waiting := suspend k' (Accommodations.remove_nth i (waiting sys)) |}
  | _ => sys
  end.

Inductive Step : Type :=
| User (a : Action)
| Resolve (i : nat) (r : DbResult).

Definition step (p : Props) (sys : System) (l : Step) : System :=
  match l with
  | User a => dispatch p a sys
  | Resolve i r => resolve i r sys
  end.

Definition steps (p : Props) (sys : System) (tr : list Step) : System :=
  fold_left (step p) tr sys.

Definition boot : System := {| now := World initial []; waiting := [] |}.

(** Ratings on the scale of the stars, zero for none. *)
Definition in_scale (z : Z) : Prop := (0 <= z <= 5)%Z.

Definition draft_in_scale (s : State) : Prop :=
  in_scale (rating s) /\ in_scale (hoveredRating s).

(** A row the store can take from this form: for the spot and the user of
    the props, rated with one to five stars, the comment absent or not
    empty. *)
Definition row_ok (p : Props) (r : Request) : Prop :=
  match r with
  | InsertReview row =>
      spot_id row = spotId p /\ user_id row = userId p
      /\ (1 <= row_rating row <= 5)%Z
      /\ row_comment row <> Some []
  end.

Definition setter_in_scale (e : effect Setter) : Prop :=
  match e with
  | SetState (setRating r) => in_scale r
  | SetState (setHoveredRating r) => in_scale r
  | _ => True
  end.

Definition world_ok (p : Props) (w : world Request State) : Prop :=
  draft_in_scale (state w) /\ Forall (row_ok p) (calls (log w)).

(** A handler of the form that keeps the draft in scale and issues only
    such rows; a system whose world and submissions in flight are so. *)
Definition form_ok (p : Props) : Prog -> Prop :=
  Invariants.always (Ans := Answer) setter_in_scale (row_ok p).

Definition system_ok (p : Props) (sys : System) : Prop :=
  world_ok p (now sys) /\ Forall (form_ok p) (waiting sys).

End ReviewFormEvents.

(* ================================================================== *)
(** ** More sample data *)
(* ================================================================== *)

Module MoreSamples.
Import JS Async Accommodations Samples.

(** A geographic service that answers every barangay request with a
    response that is not ok, whose body holds two barangays of Daraga out
    of order, and the two collections with one municipality and one
    city. *)
Definition serving : Answers :=
  fun r =>
    match r return Answer r with
    | SelectAccommodations => {| data := Some [inn]; error := false |}
    | UpdateAccommodation _ _ => DbOk
    | InsertAccommodation _ => DbOk
    | DeleteAccommodation _ => DbOk
    | Fetch _ => Some {| ok := false; body := [] |}
    | FetchBoth _ _ =>
        Some ({| ok := true; body := [] |}, {| ok := false; body := [] |})
    | ReadJson _ =>
        Some (JArray [{| g_code := lit "050503002"; g_name := lit "Bascaran" |};
                      {| g_code := lit "050503001"; g_name := lit "Anislag" |}])
    | ReadJsonBoth _ _ =>
        Some (JArray [{| g_code := lit "050503000"; g_name := lit "Daraga" |}],
              JArray [{| g_code := lit "050506000";
                         g_name := lit "Legazpi City" |}])
    | Confirm _ => true
    end.

Definition served : remote Request Answer := fun _ => serving.

Definition bascaran : Barangay :=
  {| b_code := lit "050503002"; b_name := lit "Bascaran" |}.

(** A listing whose lists were stored by a submission of the draft. *)
Definition casa : Accommodation :=
  {| a_id := lit "9"; a_name := lit "Casa"; a_description := [];
     a_location := lit "Bitano"; a_municipality := lit "Legazpi City";
     a_category := d_category (accommodationData draft); a_image_url := [];
     a_contact_number := []; a_email := []; a_price_range := [];
     a_amenities := d_amenities (accommodationData draft);
     a_rating := of_Z 4 |}.

(** A draft of a review, and the props of a viewer who has not reviewed. *)
Definition review_draft : ReviewForm.State :=
  {| ReviewForm.rating := 4; ReviewForm.hoveredRating := 0;
     ReviewForm.comment := lit "  nice  ";
     ReviewForm.isSubmitting := false |}.

Definition blank_draft : ReviewForm.State :=
  {| ReviewForm.rating := 2; ReviewForm.hoveredRating := 0;
     ReviewForm.comment := lit "   ";
     ReviewForm.isSubmitting := false |}.

Definition visitor : ReviewForm.Props :=
  {| ReviewForm.spotId := lit "s1"; ReviewForm.userId := lit "u1";
     ReviewForm.hasUserReviewed := false |}.

(** Two reviews, the first by the viewer. *)
Definition by_ana : ReviewList.Review :=
  {| ReviewList.id := lit "r1"; ReviewList.rating := of_Z 5;
     ReviewList.comment := Some (lit "great");
     ReviewList.created_at := lit "2025-01-01";
     ReviewList.user_id := lit "ana"; ReviewList.user_name := lit "Ana" |}.

Definition by_ben : ReviewList.Review :=
  {| ReviewList.id := lit "r2"; ReviewList.rating := of_Z 2;
     ReviewList.comment := None;
     ReviewList.created_at := lit "2025-01-02";
     ReviewList.user_id := lit "ben"; ReviewList.user_name := lit "Ben" |}.

Definition seen_by_ana : ReviewList.Props :=
  {| ReviewList.currentUserId := Some (lit "ana");
     ReviewList.reviews := [by_ana; by_ben];
     ReviewList.isLoading := false |}.

End MoreSamples.

(* ================================================================== *)
(** ** Strings: [split], [trim] and the tokens of a text *)
(* ================================================================== *)

Section StringFacts.
Import JS.

Lemma split_not_nil (sep : code_unit) (s : jstring) : split sep s <> [].
Proof.
  induction s as [|c s IH]; cbn; [discriminate|].
  destruct (N.eqb c sep); [discriminate|].
  destruct (split sep s); [contradiction|discriminate].
Qed.

Lemma join_cons_token (sep : jstring) (c : code_unit) (t : jstring)
    (ts : list jstring) :
  join sep ((c :: t) :: ts) = c :: join sep (t :: ts).
Proof. destruct ts; reflexivity. Qed.

Lemma join_cons_more (sep t u : jstring) (ts : list jstring) :
  join sep (t :: u :: ts) = t ++ sep ++ join sep (u :: ts).
Proof. reflexivity. Qed.

(** Joining the pieces gives the text back. *)
Lemma join_split (sep : code_unit) (s : jstring) :
  join [sep] (split sep s) = s.
Proof.
  induction s as [|c s IH]; cbn [split]; [reflexivity|].
  destruct (N.eqb_spec c sep) as [->|Hne].
  - pose proof (split_not_nil sep s) as Hn.
    destruct (split sep s) as [|t ts]; [contradiction|].
    rewrite join_cons_more, IH. reflexivity.
  - pose proof (split_not_nil sep s) as Hn.
    destruct (split sep s) as [|t ts]; [contradiction|].
    rewrite join_cons_token. now rewrite IH.
Qed.

(** No piece contains the separator. *)
Lemma split_no_sep (sep : code_unit) (s : jstring) :
  Forall (fun t => ~ In sep t) (split sep s).
Proof.
  induction s as [|c s IH]; cbn [split].
  - constructor; [intros []|constructor].
  - destruct (N.eqb_spec c sep) as [->|Hne].
    + constructor; [intros []|exact IH].
    + destruct (split sep s) as [|t ts]; [repeat constructor; intros [H|[]]; congruence|].
      inversion IH as [|? ? Ht Hts]; subst.
      constructor; [|exact Hts].
      intros [H|H]; [congruence|contradiction].
Qed.

(** One piece more than there are separators: nothing is dropped. *)
Lemma length_split (sep : code_unit) (s : jstring) :
  List.length (split sep s) = Datatypes.S (count_occ N.eq_dec s sep).
Proof.
  induction s as [|c s IH]; cbn [split count_occ]; [reflexivity|].
  destruct (N.eqb_spec c sep) as [->|Hne].
  - destruct (N.eq_dec sep sep); [|contradiction]. cbn. now rewrite IH.
  - destruct (N.eq_dec c sep); [contradiction|].
    pose proof (split_not_nil sep s) as Hn.
    destruct (split sep s) as [|t ts]; [contradiction|]. exact IH.
Qed.

Lemma split_cut_at (sep : code_unit) (s : jstring) :
  cut_at sep s (split sep s).
Proof.
  split; [apply split_not_nil|]. split; [apply join_split|apply split_no_sep].
Qed.

Lemma trim_start_spec (r : jstring) :
  exists a,
    r = a ++ trim_start r
    /\ forallb is_white a = true /\ begins_white (trim_start r) = false.
Proof.
  induction r as [|c r (a & E & Ha & Hb)]; cbn [trim_start].
  - exists []. repeat split.
  - destruct (is_white c) eqn:Hc.
    + exists (c :: a). cbn. rewrite Hc, Ha. repeat split; [|exact Hb].
      now rewrite <- E.
    + exists []. cbn. repeat split. exact Hc.
Qed.

Lemma forallb_rev {A} (f : A -> bool) (l : list A) :
  forallb f (rev l) = forallb f l.
Proof.
  induction l as [|x l IH]; [reflexivity|].
  cbn. rewrite forallb_app, IH. cbn. rewrite andb_true_r. apply andb_comm.
Qed.

Lemma begins_white_app (x y : jstring) :
  begins_white (x ++ y) = false -> begins_white x = false.
Proof. destruct x; [reflexivity|exact (fun H => H)]. Qed.

(** [trim] removes white space at both ends and nothing else. *)
Lemma trim_trimmed_of (r : jstring) : trimmed_of r (trim r).
Proof.
  unfold trim, trim_end.
  destruct (trim_start_spec r) as (a & E & Ha & Hb).
  destruct (trim_start_spec (rev (trim_start r))) as (b & E' & Hb' & Hc).
  set (y := trim_start (rev (trim_start r))) in *.
  assert (Ex : trim_start r = rev y ++ rev b).
  { rewrite <- (rev_involutive (trim_start r)), E'. apply rev_app_distr. }
  exists a, (rev b). repeat split.
  - now rewrite <- Ex.
  - exact Ha.
  - now rewrite forallb_rev.
  - rewrite Ex in Hb. exact (begins_white_app _ _ Hb).
  - unfold ends_white. now rewrite rev_involutive.
Qed.

Lemma map_trim_tokens (raw : list jstring) :
  Forall2 trimmed_of raw (map trim raw).
Proof.
  induction raw; cbn; constructor; [apply trim_trimmed_of|assumption].
Qed.

(** The code's [split] and [trim] give the tokens of the text. *)
Lemma split_trim_tokens (s : jstring) :
  tokens_of s (map trim (split comma s)).
Proof.
  exists (split comma s). split; [apply split_cut_at|apply map_trim_tokens].
Qed.

Lemma join_as_tail (sep : code_unit) (t : jstring) (ts : list jstring) :
  join [sep] (t :: ts)
  = t ++ match ts with [] => [] | _ :: _ => sep :: join [sep] ts end.
Proof. destruct ts; [now rewrite app_nil_r|reflexivity]. Qed.

Lemma piece_unique (sep : code_unit) (t u x y : jstring) :
  ~ In sep t -> ~ In sep u ->
  (x = [] \/ exists x', x = sep :: x') ->
  (y = [] \/ exists y', y = sep :: y') ->
  t ++ x = u ++ y -> t = u /\ x = y.
Proof.
  revert u. induction t as [|c t IH]; intros [|d u] Ht Hu Hx Hy E; cbn in *.
  - now split.
  - destruct Hx as [->|(x' & ->)]; [discriminate|].
    injection E as <- _. exfalso. apply Hu. now left.
  - destruct Hy as [->|(y' & ->)]; [discriminate|].
    injection E as -> _. exfalso. apply Ht. now left.
  - injection E as -> E.
    destruct (IH u) as [-> ->]; auto.
Qed.

(** A text is cut at its separators in one way only. *)
Lemma cut_at_unique (sep : code_unit) (s : jstring) (r1 r2 : list jstring) :
  cut_at sep s r1 -> cut_at sep s r2 -> r1 = r2.
Proof.
  intros (N1 & J1 & F1) (N2 & J2 & F2). rewrite <- J2 in J1. clear J2 s.
  revert r2 N1 N2 F2 J1.
  induction r1 as [|t ts IH]; intros [|u us] N1 N2 F2 J; try contradiction.
  inversion F1 as [|? ? Ht Hts]; inversion F2 as [|? ? Hu Hus]; subst.
  rewrite !join_as_tail in J.
  apply (@piece_unique sep) in J; try assumption;
    try (destruct ts; [now left|right; eauto]);
    try (destruct us; [now left|right; eauto]).
  destruct J as [-> J]. f_equal.
  destruct ts as [|t' ts], us as [|u' us]; try discriminate; [reflexivity|].
  injection J as J. apply IH; try assumption; discriminate.
Qed.

Lemma trim_start_white_app (a x : jstring) :
  forallb is_white a = true -> trim_start (a ++ x) = trim_start x.
Proof.
  induction a as [|c a IH]; cbn; [reflexivity|].
  intros H. apply andb_true_iff in H as [Hc Ha]. rewrite Hc. now apply IH.
Qed.

Lemma trim_start_id (x : jstring) :
  begins_white x = false -> trim_start x = x.
Proof. destruct x as [|c x]; cbn; [reflexivity|]. now intros ->. Qed.

Lemma begins_white_app_l (x y : jstring) :
  x <> [] -> begins_white (x ++ y) = begins_white x.
Proof. destruct x; [contradiction|reflexivity]. Qed.

(** Only [trim r] is [r] without the white space at its ends. *)
Lemma trimmed_of_trim (r t : jstring) : trimmed_of r t -> t = trim r.
Proof.
  intros (a & b & -> & Ha & Hb & Hs & He). unfold trim, trim_end.
  rewrite trim_start_white_app by exact Ha.
  destruct t as [|c t].
  - cbn [app]. rewrite <- (app_nil_r b), trim_start_white_app by exact Hb.
    reflexivity.
  - rewrite (trim_start_id ((c :: t) ++ b))
      by (rewrite begins_white_app_l by discriminate; exact Hs).
    rewrite rev_app_distr.
    rewrite trim_start_white_app by (now rewrite forallb_rev).
    rewrite trim_start_id by exact He. now rewrite rev_involutive.
Qed.

(** The tokens of a text are those the code computes, and no others. *)
Lemma tokens_of_unique (s : jstring) (toks : list jstring) :
  tokens_of s toks -> toks = map trim (split comma s).
Proof.
  intros (raw & Hc & Ht).
  rewrite <- (cut_at_unique _ _ _ _ Hc (split_cut_at comma s)).
  clear Hc. induction Ht as [|r t raw toks H _ IH]; [reflexivity|].
  cbn. now rewrite <- (trimmed_of_trim _ _ H), IH.
Qed.

Example tokens_of_sample :
  map trim (split comma (lit "a, b ,,c ,"))
  = [lit "a"; lit "b"; lit ""; lit "c"; lit ""].
Proof. reflexivity. Qed.

Example tokens_not_deduplicated :
  map trim (split comma (lit "WiFi,Pool, WiFi"))
  = [lit "WiFi"; lit "Pool"; lit "WiFi"].
Proof. reflexivity. Qed.

Example split_of_empty_text : split comma (lit "") = [lit ""].
Proof. reflexivity. Qed.

End StringFacts.

(* ================================================================== *)
(** ** Numbers: rounding, [toFixed] and the average *)
(* ================================================================== *)

Section NumberFacts.
Import JS ReviewList.
Local Open Scope Q_scope.

Lemma pow2_pos (e : Z) : 0 < pow2 e.
Proof. apply Qpower_0_lt. reflexivity. Qed.

Lemma pow2_add (a b : Z) : pow2 (a + b) == pow2 a * pow2 b.
Proof. apply Qpower_plus. discriminate. Qed.

Lemma pow2_Z (e : Z) : (0 <= e)%Z -> pow2 e == inject_Z (2 ^ e).
Proof. intros H. symmetry. exact (Zpower_Qpower 2 e H). Qed.

Lemma pow2_le (a b : Z) : (a <= b)%Z -> pow2 a <= pow2 b.
Proof. intros H. apply Qpower_le_compat_l; [exact H|discriminate]. Qed.

Lemma pow2_lt_inv (a b : Z) : pow2 a < pow2 b -> (a < b)%Z.
Proof. intros H. apply (Qpower_lt_compat_l_inv 2); [exact H|reflexivity]. Qed.

Lemma pow2_succ (e : Z) : pow2 (e + 1) == 2 * pow2 e.
Proof. rewrite pow2_add. change (pow2 1) with 2. ring. Qed.

Lemma round_half_even_near (x : Q) :
  Qabs (inject_Z (round_half_even x) - x) <= 1 # 2.
Proof.
  unfold round_half_even.
  pose proof (Qfloor_le x) as Hl. pose proof (Qlt_floor x) as Hu.
  rewrite inject_Z_plus in Hu. change (inject_Z 1) with 1 in Hu.
  apply Qabs_Qle_condition.
  destruct (Qcompare (x - inject_Z (Qfloor x)) (1 # 2)) eqn:E.
  - apply Qeq_alt in E.
    destruct (Z.even (Qfloor x)); rewrite ?inject_Z_plus;
      change (inject_Z 1) with 1; lra.
  - apply Qlt_alt in E. lra.
  - apply Qgt_alt in E. rewrite inject_Z_plus. change (inject_Z 1) with 1. lra.
Qed.

Lemma round_half_even_Z (x : Q) (k : Z) :
  x == inject_Z k -> round_half_even x = k.
Proof.
  intros H. unfold round_half_even.
  assert (F : Qfloor x = k) by (rewrite H; apply Qfloor_Z).
  rewrite F.
  destruct (Qcompare (x - inject_Z k) (1 # 2)) eqn:E; [|reflexivity|].
  - apply Qeq_alt in E. lra.
  - apply Qgt_alt in E. lra.
Qed.

Lemma Qmake_inject (a : Z) (b : positive) :
  (a # b) * inject_Z (Zpos b) == inject_Z a.
Proof. unfold Qeq. cbn. rewrite Pos.mul_1_r. ring. Qed.

Lemma log2_pow2 (a : Z) :
  (0 < a)%Z ->
  pow2 (Z.log2 a) <= inject_Z a /\ inject_Z a < 2 * pow2 (Z.log2 a).
Proof.
  intros Ha. destruct (Z.log2_spec a Ha) as [H1 H2].
  pose proof (Z.log2_nonneg a) as Hn.
  rewrite <- pow2_succ. rewrite Z.add_1_r. rewrite !pow2_Z by lia.
  rewrite Zle_Qle in H1. rewrite Zlt_Qlt in H2. now split.
Qed.

Lemma ilog2_spec (q : Q) :
  0 < q -> pow2 (ilog2 q) <= q /\ q < pow2 (ilog2 q + 1).
Proof.
  intros Hq. unfold ilog2.
  destruct q as [a b]. cbn [Qnum Qden].
  assert (Ha : (0 < a)%Z) by (unfold Qlt in Hq; cbn in Hq; lia).
  destruct (log2_pow2 a Ha) as [A1 A2].
  destruct (log2_pow2 (Zpos b) eq_refl) as [B1 B2].
  pose proof (Qmake_inject a b) as E.
  set (la := Z.log2 a) in *. set (lb := Z.log2 (Zpos b)) in *.
  set (d := (la - lb)%Z).
  assert (D : pow2 d * pow2 lb == pow2 la)
    by (rewrite <- pow2_add; unfold d; now replace (la - lb + lb)%Z with la by ring).
  pose proof (pow2_pos d) as Pd. pose proof (pow2_pos lb) as Pb.
  assert (Bp : 0 < inject_Z (Zpos b)) by reflexivity.
  assert (Up : (a # b) < 2 * pow2 d).
  { apply (Qmult_lt_r _ _ (inject_Z (Zpos b)) Bp). rewrite E.
    apply Qlt_le_trans with (2 * pow2 la); [exact A2|].
    rewrite <- D. rewrite <- !Qmult_assoc.
    apply Qmult_le_l; [reflexivity|]. apply Qmult_le_l; [exact Pd|exact B1]. }
  assert (Lo : pow2 d <= 2 * (a # b)).
  { apply (Qmult_le_r _ _ (inject_Z (Zpos b)) Bp).
    rewrite <- Qmult_assoc, E.
    apply Qle_trans with (pow2 d * (2 * pow2 lb)).
    - apply Qmult_le_l; [exact Pd|]. lra.
    - setoid_replace (pow2 d * (2 * pow2 lb)) with (2 * pow2 la)
        by (rewrite <- D; ring). lra. }
  destruct (Qle_bool (pow2 d) (a # b)) eqn:T.
  - apply Qle_bool_iff in T. split; [exact T|]. now rewrite pow2_succ.
  - assert (T' : (a # b) < pow2 d).
    { apply Qnot_le_lt. intros H. apply Qle_bool_iff in H. congruence. }
    split.
    + assert (S1 : pow2 d == 2 * pow2 (d - 1)).
      { rewrite <- pow2_succ. now replace (d - 1 + 1)%Z with d by ring. }
      lra.
    + now replace (d - 1 + 1)%Z with d by ring.
Qed.


Lemma round64_pos_near (q : Q) :
  pow2 (-1022) <= q -> q < pow2 1023 ->
  exists y, round64_pos q = Some y /\ Qabs (y - q) <= q * pow2 (-53).
Proof.
  intros Hlo Hhi.
  assert (Hq : 0 < q) by (pose proof (pow2_pos (-1022)); lra).
  destruct (ilog2_spec q Hq) as [L1 L2].
  unfold round64_pos.
  set (L := ilog2 q) in *.
  assert (HL : (-1022 <= L)%Z).
  { assert (H : pow2 (-1022) < pow2 (L + 1)) by lra.
    apply pow2_lt_inv in H. lia. }
  rewrite Z.max_l by lia.
  set (e := (L - 52)%Z). set (m := round_half_even (q / pow2 e)).
  pose proof (round_half_even_near (q / pow2 e)) as Hm. fold m in Hm.
  pose proof (pow2_pos e) as Pe.
  assert (Eq : q == (q / pow2 e) * pow2 e) by (field; lra).
  assert (Ee : pow2 e * (1 # 2) == pow2 L * pow2 (-53)).
  { unfold e. replace (L - 52)%Z with (L + -52)%Z by ring.
    rewrite pow2_add. change (pow2 (-52)) with (1 # 4503599627370496).
    change (pow2 (-53)) with (1 # 9007199254740992). field. }
  assert (Hy : Qabs (inject_Z m * pow2 e - q) <= pow2 e * (1 # 2)).
  { setoid_replace (inject_Z m * pow2 e - q)
      with ((inject_Z m - q / pow2 e) * pow2 e) by (rewrite Eq at 1; ring).
    rewrite Qabs_Qmult, (Qabs_pos (pow2 e)) by lra.
    rewrite (Qmult_comm (pow2 e)). apply Qmult_le_compat_r; [exact Hm|lra]. }
  assert (Hb : Qabs (inject_Z m * pow2 e - q) <= q * pow2 (-53)).
  { eapply Qle_trans; [exact Hy|]. rewrite Ee.
    apply Qmult_le_compat_r; [exact L1|]. pose proof (pow2_pos (-53)). lra. }
  assert (Ho : Qle_bool (pow2 1024) (inject_Z m * pow2 e) = false).
  { destruct (Qle_bool (pow2 1024) (inject_Z m * pow2 e)) eqn:T; [|reflexivity].
    apply Qle_bool_iff in T. apply Qabs_Qle_condition in Hb.
    assert (P : pow2 1024 == 2 * pow2 1023) by (apply (pow2_succ 1023)).
    assert (S : q * pow2 (-53) <= q).
    { rewrite <- (Qmult_1_r q) at 2. apply Qmult_le_l; [exact Hq|].
      change (pow2 (-53)) with (1 # 9007199254740992). discriminate. }
    lra. }
  rewrite Ho. eexists. split; [reflexivity|]. now rewrite Qred_correct.
Qed.

Lemma Qred_inject_Z (q : Q) (z : Z) : q == inject_Z z -> Qred q = inject_Z z.
Proof.
  intros H. rewrite (Qred_complete _ _ H). apply Qcanon.Qred_identity.
  apply Z.gcd_1_r.
Qed.

Lemma round64_pos_Z (z : Z) :
  (0 < z < 2 ^ 53)%Z -> round64_pos (inject_Z z) = Some (inject_Z z).
Proof.
  intros [Hz1 Hz2].
  assert (Hq : 0 < inject_Z z) by (rewrite <- (Zlt_Qlt 0); exact Hz1).
  destruct (ilog2_spec (inject_Z z) Hq) as [L1 L2].
  unfold round64_pos. set (L := ilog2 (inject_Z z)) in *.
  assert (U : inject_Z z < pow2 53)
    by (rewrite pow2_Z by lia; rewrite <- Zlt_Qlt; exact Hz2).
  assert (D : pow2 0 <= inject_Z z)
    by (change (pow2 0) with (inject_Z 1); rewrite <- Zle_Qle; lia).
  assert (HL : (0 <= L <= 52)%Z).
  { assert (H1 : pow2 L < pow2 53) by lra. apply pow2_lt_inv in H1.
    assert (H2 : pow2 0 < pow2 (L + 1)) by lra. apply pow2_lt_inv in H2. lia. }
  rewrite Z.max_l by lia.
  set (e := (L - 52)%Z).
  pose proof (pow2_pos e) as Pe.
  assert (I : pow2 e * inject_Z (2 ^ (52 - L)) == 1).
  { rewrite <- pow2_Z by lia. rewrite <- pow2_add. unfold e.
    now replace (L - 52 + (52 - L))%Z with 0%Z by ring. }
  assert (M : inject_Z z / pow2 e == inject_Z (z * 2 ^ (52 - L))).
  { rewrite inject_Z_mult. rewrite <- (Qmult_1_r (inject_Z z / pow2 e)).
    rewrite <- I. field. lra. }
  rewrite (round_half_even_Z _ _ M).
  assert (Y : inject_Z (z * 2 ^ (52 - L)) * pow2 e == inject_Z z).
  { rewrite inject_Z_mult, <- Qmult_assoc, (Qmult_comm _ (pow2 e)), I. ring. }
  assert (Ho : Qle_bool (pow2 1024) (inject_Z (z * 2 ^ (52 - L)) * pow2 e)
               = false).
  { destruct (Qle_bool (pow2 1024) _) eqn:T; [|reflexivity].
    apply Qle_bool_iff in T.
    pose proof (pow2_le 53 1024 ltac:(lia)). lra. }
  rewrite Ho. f_equal. now apply Qred_inject_Z.
Qed.

Lemma round64_Z (q : Q) (z : Z) :
  q == inject_Z z -> (0 <= z < 2 ^ 53)%Z -> round64 q = of_Z z.
Proof.
  intros H Hz. unfold round64. rewrite (Qred_inject_Z _ _ H).
  cbn [Qnum inject_Z]. destruct z as [|p|p]; [reflexivity| |lia].
  change (Z.pos p # 1) with (inject_Z (Z.pos p)).
  rewrite round64_pos_Z by lia. reflexivity.
Qed.

Lemma round64_near (q : Q) :
  pow2 (-1022) <= q -> q < pow2 1023 ->
  exists y, round64 q = Fin y /\ Qabs (y - q) <= q * pow2 (-53).
Proof.
  intros Hlo Hhi. unfold round64.
  pose proof (Qred_correct q) as E.
  assert (Hq : 0 < Qred q) by (pose proof (pow2_pos (-1022)); lra).
  destruct (round64_pos_near (Qred q)) as (y & Hy & Hb); [lra|lra|].
  destruct (Qred q) as [a b] eqn:Er. cbn [Qnum].
  destruct a as [|p|p]; [discriminate Hq| |discriminate Hq].
  rewrite Hy. exists y. split; [reflexivity|].
  rewrite E in Hb. exact Hb.
Qed.

(** *** Decimal digits *)

Lemma digits_loop_acc (fuel : nat) (n : Z) (acc : jstring) :
  digits_loop fuel n acc = digits_loop fuel n [] ++ acc.
Proof.
  revert n acc. induction fuel as [|fuel IH]; intros n acc; cbn [digits_loop];
    [reflexivity|].
  destruct (n <? 10)%Z; [reflexivity|].
  rewrite (IH _ (_ :: acc)), (IH _ [_]), <- app_assoc. reflexivity.
Qed.

Lemma digits_loop_more (fuel : nat) (n : Z) (acc : jstring) :
  (0 <= n < 2 ^ Z.of_nat (S fuel))%Z ->
  digits_loop (S fuel) n acc = digits_loop (S (S fuel)) n acc.
Proof.
  revert n acc. induction fuel as [|fuel IH]; intros n acc Hn.
  - cbn [digits_loop]. change (2 ^ Z.of_nat 1)%Z with 2%Z in Hn.
    destruct (Z.ltb_spec n 10); [reflexivity|lia].
  - cbn [digits_loop] in IH |- *.
    destruct (Z.ltb_spec n 10) as [|Hge]; [reflexivity|].
    apply IH. split; [apply Z.div_pos; lia|].
    rewrite Nat2Z.inj_succ, Z.pow_succ_r in Hn by lia.
    apply Z.div_lt_upper_bound; lia.
Qed.

Lemma digits_loop_fuel (f1 f2 : nat) (n : Z) (acc : jstring) :
  (f1 <= f2)%nat -> (0 <= n < 2 ^ Z.of_nat (S f1))%Z ->
  digits_loop (S f1) n acc = digits_loop (S f2) n acc.
Proof.
  intros Hle Hn. induction Hle as [|f2 Hle IH]; [reflexivity|].
  rewrite IH. apply digits_loop_more.
  split; [lia|]. eapply Z.lt_le_trans; [apply Hn|].
  apply Z.pow_le_mono_r; lia.
Qed.

Lemma digits_loop_S (fuel : nat) (n : Z) (acc : jstring) :
  digits_loop (S fuel) n acc
  = if (n <? 10)%Z then digit (n mod 10) :: acc
    else digits_loop fuel (n / 10) (digit (n mod 10) :: acc).
Proof. reflexivity. Qed.

Lemma decimal_digits_small (n : Z) :
  (0 <= n < 10)%Z -> decimal_digits n = [digit n].
Proof.
  intros Hn. unfold decimal_digits. rewrite digits_loop_S.
  destruct (Z.ltb_spec n 10); [|lia]. now rewrite Z.mod_small by lia.
Qed.

Lemma decimal_digits_step (n : Z) :
  (10 <= n)%Z ->
  decimal_digits n = decimal_digits (n / 10) ++ [digit (n mod 10)].
Proof.
  intros Hn. unfold decimal_digits.
  assert (H1 : (0 < n / 10)%Z) by (apply Z.div_str_pos; lia).
  destruct (Z.log2_spec n ltac:(lia)) as [A1 A2].
  destruct (Z.log2_spec (n / 10) H1) as [B1 B2].
  pose proof (Z.log2_nonneg n). pose proof (Z.log2_nonneg (n / 10)).
  assert (Hl : (Z.log2 (n / 10) < Z.log2 n)%Z).
  { apply Z.log2_lt_pow2; [lia|].
    apply Z.div_lt_upper_bound; [lia|].
    eapply Z.lt_le_trans; [exact A2|].
    rewrite Z.pow_succ_r by lia. lia. }
  destruct (Z.to_nat (Z.log2 n)) as [|k] eqn:Ek; [lia|].
  rewrite (digits_loop_S (S k) n). destruct (Z.ltb_spec n 10); [lia|].
  rewrite digits_loop_acc. f_equal.
  symmetry. apply digits_loop_fuel; [lia|].
  split; [lia|]. rewrite Nat2Z.inj_succ, Z2Nat.id by lia.
  exact B2.
Qed.

Lemma decimal_digits_length (n : Z) : (1 <= List.length (decimal_digits n))%nat.
Proof.
  unfold decimal_digits. rewrite digits_loop_S.
  destruct (n <? 10)%Z; [cbn; lia|].
  rewrite digits_loop_acc, length_app. cbn. lia.
Qed.

Lemma format_fixed_one (n : Z) : (0 <= n)%Z -> format_fixed 1 n = one_decimal n.
Proof.
  intros Hn. unfold format_fixed, one_decimal, int_to_string.
  destruct (Z.eqb_spec n 0) as [->|Hz]; [reflexivity|].
  destruct (Z_lt_le_dec n 10) as [Hs|Hb].
  - rewrite decimal_digits_small by lia.
    rewrite Z.div_small, Z.mod_small by lia. reflexivity.
  - rewrite decimal_digits_step by exact Hb.
    assert (H1 : (0 < n / 10)%Z) by (apply Z.div_str_pos; lia).
    destruct (Z.eqb_spec (n / 10) 0); [lia|].
    pose proof (decimal_digits_length (n / 10)) as Hl.
    set (ds := decimal_digits (n / 10)) in *.
    rewrite length_app. cbn [List.length].
    destruct (Nat.leb_spec (List.length ds + 1) 1); [lia|].
    rewrite length_app. cbn [List.length].
    replace (List.length ds + 1 - 1)%nat with (List.length ds + 0)%nat by lia.
    rewrite firstn_app_2, skipn_app. cbn [firstn].
    rewrite app_nil_r, skipn_all2 by lia.
    replace (List.length ds + 0 - List.length ds)%nat with 0%nat by lia.
    reflexivity.
Qed.

(** *** Sums and quotients of small integers *)

Lemma add_of_Z (a b : Z) :
  (0 <= a)%Z -> (0 <= b)%Z -> (a + b < 2 ^ 53)%Z ->
  add (of_Z a) (of_Z b) = of_Z (a + b).
Proof.
  intros Ha Hb Hs. unfold add, of_Z.
  apply round64_Z; [|lia]. now rewrite inject_Z_plus.
Qed.

Lemma total_bounds (zs : list Z) :
  Forall (fun z => (0 <= z <= 5)%Z) zs ->
  (0 <= total zs <= 5 * Z.of_nat (List.length zs))%Z.
Proof.
  induction 1 as [|z zs Hz _ IH]; cbn [total fold_right List.length];
    [lia|]. fold (total zs). lia.
Qed.

Lemma sum_ratings (rs : list Review) (zs : list Z) (acc : Z) :
  map rating rs = map of_Z zs ->
  Forall (fun z => (0 <= z <= 5)%Z) zs ->
  (0 <= acc)%Z ->
  (acc + 5 * Z.of_nat (List.length zs) < 2 ^ 53)%Z ->
  fold_left (fun sum r => add sum (rating r)) rs (of_Z acc)
  = of_Z (acc + total zs).
Proof.
  revert zs acc. induction rs as [|r rs IH]; intros [|z zs] acc E F Ha Hb;
    try discriminate.
  - cbn. now rewrite Z.add_0_r.
  - cbn [map] in E. injection E as Er E.
    inversion F as [|? ? Hz F']; subst.
    cbn [fold_left total fold_right]. fold (total zs).
    cbn [List.length] in Hb.
    rewrite Er, add_of_Z by lia.
    rewrite (IH zs (acc + z)%Z E F') by lia.
    f_equal. ring.
Qed.

Lemma nearest_tenth (S n : Z) (y : Q) :
  (0 < n)%Z -> (0 < S)%Z -> (20 * S < 2 ^ 53)%Z ->
  Qabs (y - inject_Z S / inject_Z n)
  <= (inject_Z S / inject_Z n) * pow2 (-53) ->
  Qabs (inject_Z (Qfloor (y * 10 + (1 # 2))) / 10 - inject_Z S / inject_Z n)
  <= 1 # 20.
Proof.
  intros Hn HS Hb Hy.
  set (N := Qfloor (y * 10 + (1 # 2))).
  pose proof (Qfloor_le (y * 10 + (1 # 2))) as F1.
  pose proof (Qlt_floor (y * 10 + (1 # 2))) as F2.
  fold N in F1, F2. rewrite inject_Z_plus in F2.
  change (inject_Z 1) with 1 in F2.
  assert (Pn : 0 < inject_Z n) by (rewrite <- (Zlt_Qlt 0); exact Hn).
  assert (Ps : 0 < inject_Z S) by (rewrite <- (Zlt_Qlt 0); exact HS).
  rewrite Zlt_Qlt, inject_Z_mult in Hb.
  change (inject_Z (2 ^ 53)) with 9007199254740992 in Hb.
  change (inject_Z 20) with 20 in Hb.
  change (pow2 (-53)) with (1 # 9007199254740992) in Hy.
  set (s := inject_Z S) in *. set (d := inject_Z n) in *.
  set (Y := y * d).
  assert (Hy' : Qabs (Y - s) <= s * (1 # 9007199254740992)).
  { setoid_replace (Y - s) with ((y - s / d) * d) by (unfold Y; field; lra).
    rewrite Qabs_Qmult, (Qabs_pos d) by lra.
    setoid_replace (s * (1 # 9007199254740992))
      with (s / d * (1 # 9007199254740992) * d) by (field; lra).
    apply Qmult_le_compat_r; [exact Hy|lra]. }
  apply Qabs_Qle_condition in Hy'.
  set (P := inject_Z N * d).
  assert (G1 : P <= 10 * Y + d * (1 # 2)).
  { setoid_replace (10 * Y + d * (1 # 2)) with ((y * 10 + (1 # 2)) * d)
      by (unfold Y; ring).
    unfold P. apply Qmult_le_compat_r; [exact F1|lra]. }
  assert (G2 : 10 * Y + d * (1 # 2) < P + d).
  { setoid_replace (10 * Y + d * (1 # 2)) with ((y * 10 + (1 # 2)) * d)
      by (unfold Y; ring).
    setoid_replace (P + d) with ((inject_Z N + 1) * d) by (unfold P; ring).
    apply Qmult_lt_compat_r; [exact Pn|exact F2]. }
  assert (K1 : (2 * N * n < 20 * S + n + 1)%Z).
  { rewrite Zlt_Qlt. rewrite !inject_Z_plus, !inject_Z_mult.
    fold s d. change (inject_Z 2) with 2. change (inject_Z 20) with 20.
    change (inject_Z 1) with 1.
    setoid_replace (2 * inject_Z N * d) with (2 * P) by (unfold P; ring).
    lra. }
  assert (K2 : (20 * S < 2 * N * n + n + 1)%Z).
  { rewrite Zlt_Qlt. rewrite !inject_Z_plus, !inject_Z_mult.
    fold s d. change (inject_Z 2) with 2. change (inject_Z 20) with 20.
    change (inject_Z 1) with 1.
    setoid_replace (2 * inject_Z N * d) with (2 * P) by (unfold P; ring).
    lra. }
  assert (J1 : 2 * P <= 20 * s + d).
  { assert (H : (2 * N * n <= 20 * S + n)%Z) by lia.
    rewrite Zle_Qle in H. rewrite !inject_Z_plus, !inject_Z_mult in H.
    fold s d in H. change (inject_Z 2) with 2 in H.
    change (inject_Z 20) with 20 in H.
    setoid_replace (2 * inject_Z N * d) with (2 * P) in H by (unfold P; ring).
    exact H. }
  assert (J2 : 20 * s <= 2 * P + d).
  { assert (H : (20 * S <= 2 * N * n + n)%Z) by lia.
    rewrite Zle_Qle in H. rewrite !inject_Z_plus, !inject_Z_mult in H.
    fold s d in H. change (inject_Z 2) with 2 in H.
    change (inject_Z 20) with 20 in H.
    setoid_replace (2 * inject_Z N * d) with (2 * P) in H by (unfold P; ring).
    exact H. }
  apply Qabs_Qle_condition. split.
  - apply (Qmult_le_r _ _ d Pn).
    setoid_replace ((inject_Z N / 10 - s / d) * d) with (P * (1 # 10) - s)
      by (unfold P; field; lra).
    lra.
  - apply (Qmult_le_r _ _ d Pn).
    setoid_replace ((inject_Z N / 10 - s / d) * d) with (P * (1 # 10) - s)
      by (unfold P; field; lra).
    lra.
Qed.

Lemma Qabs_nonneg_eq (y : Q) : 0 <= y -> Qabs y = y.
Proof.
  destruct y as [a b]. unfold Qle, Qabs. cbn. intros H.
  f_equal. apply Z.abs_eq. lia.
Qed.

Lemma toFixed_one (y : Q) :
  0 <= y -> y < 100 ->
  toFixed 1 (Fin y) = Some (one_decimal (Qfloor (y * 10 + (1 # 2)))).
Proof.
  intros H0 H1. unfold toFixed. cbn [Nat.ltb Nat.leb].
  assert (Hn : is_neg y = false).
  { unfold is_neg. destruct y as [[|p|p] b]; try reflexivity.
    exfalso. unfold Qle in H0. cbn in H0. lia. }
  rewrite Hn, Qabs_nonneg_eq by exact H0.
  destruct (Qle_bool (inject_Z (10 ^ 21)) y) eqn:T.
  - apply Qle_bool_iff in T.
    change (inject_Z (10 ^ 21)) with 1000000000000000000000 in T. lra.
  - cbn [app]. unfold nearest_scaled.
    change (inject_Z (10 ^ Z.of_nat 1)) with 10.
    rewrite format_fixed_one; [reflexivity|].
    rewrite <- (Qfloor_Z 0). apply Qfloor_resp_le.
    change (inject_Z 0) with 0. lra.
Qed.

Lemma average_of_integers (rs : list Review) (zs : list Z) :
  rs <> [] ->
  map rating rs = map of_Z zs ->
  Forall (fun z => (0 <= z <= 5)%Z) zs ->
  (Z.of_nat (List.length rs) < 2 ^ 32)%Z ->
  exists n : Z,
    (0 <= n)%Z
    /\ averageText rs = Some (one_decimal n)
    /\ Qabs (inject_Z n / 10 - mean zs) <= 1 # 20.
Proof.
  intros Hne E F Hlen.
  assert (El : List.length rs = List.length zs).
  { rewrite <- (length_map rating rs), E. apply length_map. }
  change (2 ^ 32)%Z with 4294967296%Z in Hlen.
  pose proof (total_bounds zs F) as Ht.
  unfold averageText, averageRating, mean.
  rewrite (sum_ratings rs zs 0 E F)
    by (change (2 ^ 53)%Z with 9007199254740992%Z; lia).
  rewrite Z.add_0_l, <- El.
  set (S := total zs) in *. set (n := Z.of_nat (List.length rs)) in *.
  assert (Hn : (0 < n)%Z) by (unfold n; destruct rs; [contradiction|cbn; lia]).
  assert (Pn : 0 < inject_Z n) by (rewrite <- (Zlt_Qlt 0); exact Hn).
  unfold div, of_Z.
  destruct (Qeq_bool (inject_Z n) 0) eqn:Tz.
  { apply Qeq_bool_iff in Tz. lra. }
  destruct (Z.eq_dec S 0) as [Hz|Hz].
  - rewrite Hz. change (inject_Z 0) with 0.
    rewrite (round64_Z (0 / inject_Z n) 0)
      by (try (change (2 ^ 53)%Z with 9007199254740992%Z; lia);
          change (inject_Z 0) with 0; field; lra).
    exists 0%Z. split; [lia|]. split; [reflexivity|].
    setoid_replace (inject_Z 0 / 10 - 0 / inject_Z n) with 0
      by (change (inject_Z 0) with 0; field; lra).
    discriminate.
  - assert (HS : (0 < S)%Z) by lia.
    assert (Ps : 0 < inject_Z S) by (rewrite <- (Zlt_Qlt 0); exact HS).
    assert (Q1 : inject_Z S / inject_Z n <= 5).
    { apply Qle_shift_div_r; [exact Pn|].
      change 5 with (inject_Z 5). rewrite <- inject_Z_mult, <- Zle_Qle. lia. }
    assert (Q2 : 1 # 4294967296 <= inject_Z S / inject_Z n).
    { apply Qle_shift_div_l; [exact Pn|].
      apply Qle_trans with 1.
      - assert (H : inject_Z n <= 4294967296)
          by (change 4294967296 with (inject_Z 4294967296);
              rewrite <- Zle_Qle; lia).
        lra.
      - change 1 with (inject_Z 1). rewrite <- Zle_Qle. lia. }
    destruct (round64_near (inject_Z S / inject_Z n)) as (y & Hy & Hb).
    { eapply Qle_trans; [apply (pow2_le (-1022) (-32)); lia|].
      change (pow2 (-32)) with (1 # 4294967296). exact Q2. }
    { eapply Qle_lt_trans; [exact Q1|].
      eapply Qlt_le_trans; [|apply (pow2_le 3 1023); lia].
      reflexivity. }
    rewrite Hy.
    assert (Hb' := Hb). apply Qabs_Qle_condition in Hb'.
    change (pow2 (-53)) with (1 # 9007199254740992) in Hb'.
    rewrite toFixed_one by lra.
    exists (Qfloor (y * 10 + (1 # 2))). split.
    + rewrite <- (Qfloor_Z 0). apply Qfloor_resp_le.
      change (inject_Z 0) with 0. lra.
    + split; [reflexivity|].
      apply nearest_tenth; try assumption.
      change (2 ^ 53)%Z with 9007199254740992%Z. lia.
Qed.

(** [round64] against the Standard Library's binary64 division and
    addition, on a grid of small integers and at the ends of the range of
    the average. *)
Example round64_agrees_with_SpecFloat :
  forallb (fun a =>
             forallb (fun b => agrees_with_binary64 (Z.of_nat a)
                                 (Z.of_nat (Datatypes.S b)))
                     (seq 0 40))
          (seq 0 60)
  = true
  /\ agrees_with_binary64 1 4294967295 = true
  /\ agrees_with_binary64 21474836475 4294967295 = true
  /\ agrees_with_binary64 21474836468 4294967295 = true.
Proof. vm_compute. repeat split. Qed.

End NumberFacts.

(* ================================================================== *)
(** ** The review form *)
(* ================================================================== *)

Section ReviewFormFacts.
Import JS Async ReviewForm.

Local Abbreviation run := (Async.run ReviewForm.update).

Lemma or_null_trim (c : jstring) :
  or_null (trim c)
  = match trim c with [] => None | x :: t => Some (x :: t) end.
Proof. unfold or_null. destruct (trim c); reflexivity. Qed.

(** C7.  Submitting with rating 0: whatever the remote side would answer
    and whatever the live state and the log are, the run adds exactly one
    entry to the log, the validation toast, so no remote operation is
    issued, and the state (rating, comment, submitting flag) is the one
    before. *)
Theorem submit_without_rating_is_rejected_locally
    (p : Props) (s : State) (env : remote Request Answer) (n : nat)
    (w : world Request State) :
  rating s = 0%Z ->
  let w' := run env n (handleSubmit p s) w in
  log w' = log w ++ [Shown select_a_rating]
  /\ calls (log w') = calls (log w)
  /\ state w' = state w.
Proof.
  intros H0 w'. subst w'. unfold handleSubmit. rewrite H0. cbn.
  repeat split. unfold calls. rewrite flat_map_app. cbn.
  now rewrite app_nil_r.
Qed.

Lemma submit_without_rating_is_rejected_locally_witness :
  let s := {| rating := 0; hoveredRating := 3; comment := lit "fine";
              isSubmitting := false |} in
  let p := {| spotId := lit "s1"; userId := lit "u1";
              hasUserReviewed := false |} in
  let w' := run (fun _ _ => DbOk) 0 (handleSubmit p s) (World s []) in
  log w' = [Shown select_a_rating] /\ calls (log w') = [] /\ state w' = s.
Proof.
  intros s p.
  exact (submit_without_rating_is_rejected_locally p s (fun _ _ => DbOk) 0
           (World s []) eq_refl).
Defined.

Lemma handleSubmit_rated_calls
    (p : Props) (s : State) (env : remote Request Answer) (n : nat)
    (w : world Request State) :
  rating s <> 0%Z ->
  calls (log (run env n (handleSubmit p s) w))
  = calls (log w) ++ [InsertReview (sent_row p s)].
Proof.
  intros Hr. unfold handleSubmit.
  apply Z.eqb_neq in Hr. rewrite Hr. cbn.
  rewrite or_null_trim. fold (sent_row p s).
  destruct (env n (InsertReview (sent_row p s))); cbn;
    rewrite <- ?app_assoc; cbn; unfold calls; rewrite flat_map_app; cbn;
    reflexivity.
Qed.

(** C8.  Submitting with a rating other than 0 issues one insert, of the
    row with the trimmed comment ([null] when that is empty).  When the
    insert succeeds the success toast is shown, the rating is 0 and the
    comment empty afterwards, and the refresh callback is invoked.  When
    it fails the failure toast is shown, rating and comment are what they
    were, and the callback is not invoked. *)
Theorem submit_with_rating
    (p : Props) (s : State) (env : remote Request Answer) (n : nat)
    (w : world Request State) :
  rating s <> 0%Z ->
  let w' := run env n (handleSubmit p s) w in
  calls (log w') = calls (log w) ++ [InsertReview (sent_row p s)]
  /\ match env n (InsertReview (sent_row p s)) with
     | DbOk =>
         rating (state w') = 0%Z
         /\ comment (state w') = []
         /\ log w' = log w ++ [Issued (InsertReview (sent_row p s));
                               Shown submit_succeeded;
                               Invoked "onReviewSubmitted"]
     | DbError =>
         rating (state w') = rating (state w)
         /\ comment (state w') = comment (state w)
         /\ log w' = log w ++ [Issued (InsertReview (sent_row p s));
                               Shown submit_failed]
     end.
Proof.
  intros Hr w'. subst w'.
  split; [now apply handleSubmit_rated_calls|].
  unfold handleSubmit.
  apply Z.eqb_neq in Hr. rewrite Hr. cbn.
  rewrite or_null_trim. fold (sent_row p s).
  destruct (env n (InsertReview (sent_row p s))); cbn;
    rewrite <- ?app_assoc; repeat split.
Qed.

Lemma submit_with_rating_witness :
  let s := {| rating := 4; hoveredRating := 0; comment := lit "  nice  ";
              isSubmitting := false |} in
  let p := {| spotId := lit "s1"; userId := lit "u1";
              hasUserReviewed := false |} in
  let w' := run (fun _ _ => DbError) 0 (handleSubmit p s) (World s []) in
  row_comment (sent_row p s) = Some (lit "nice")
  /\ calls (log w') = [InsertReview (sent_row p s)]
  /\ rating (state w') = 4%Z
  /\ comment (state w') = lit "  nice  "
  /\ log w' = [Issued (InsertReview (sent_row p s)); Shown submit_failed].
Proof.
  intros s p.
  pose proof (submit_with_rating p s (fun _ _ => DbError) 0 (World s []))
    as H.
  split; [reflexivity|].
  destruct H as [H1 H2]; [discriminate|].
  split; [exact H1|exact H2].
Defined.

(** C10.  [handleSubmit] does not read [hasUserReviewed]: setting the
    flag to any value leaves the handler's program, hence every remote
    call, toast and state update of every run, the same; with a rating
    chosen the insert is issued also when the flag is set.  The flag only
    disables the submit button. *)
Theorem submit_ignores_hasUserReviewed
    (p : Props) (s : State) (b : bool) :
  let p' := {| spotId := spotId p; userId := userId p;
               hasUserReviewed := b |} in
  handleSubmit p' s = handleSubmit p s
  /\ (forall env n w,
        state (run env n (handleSubmit p' s) w)
        = state (run env n (handleSubmit p s) w)
        /\ log (run env n (handleSubmit p' s) w)
           = log (run env n (handleSubmit p s) w))
  /\ (forall env n w,
        rating s <> 0%Z ->
        calls (log (run env n (handleSubmit p' s) w))
        = calls (log w) ++ [InsertReview (sent_row p s)])
  /\ submitDisabled p' s
     = (isSubmitting s || (rating s =? 0)%Z || b)%bool
  /\ (b = true -> submitDisabled p' s = true).
Proof.
  intros p'.
  assert (E : handleSubmit p' s = handleSubmit p s) by reflexivity.
  split; [exact E|]. split; [intros; rewrite E; split; reflexivity|].
  split.
  - intros env n w Hr. rewrite E.
    exact (handleSubmit_rated_calls p s env n w Hr).
  - split; [reflexivity|]. intros ->. unfold submitDisabled. cbn.
    now rewrite !orb_true_r.
Qed.

Lemma submit_ignores_hasUserReviewed_witness :
  let s := {| rating := 5; hoveredRating := 0; comment := lit "again";
              isSubmitting := false |} in
  let p := {| spotId := lit "s1"; userId := lit "u1";
              hasUserReviewed := true |} in
  submitDisabled p s = true
  /\ calls (log (run (fun _ _ => DbOk) 0 (handleSubmit p s) (World s [])))
     = [InsertReview (sent_row p s)].
Proof.
  intros s p.
  pose proof (submit_ignores_hasUserReviewed p s true)
    as (_ & _ & H3 & _ & H5).
  split; [exact (H5 eq_refl)|].
  refine (H3 (fun _ _ => DbOk) 0%nat (World s []) _). discriminate.
Defined.

End ReviewFormFacts.

(* ================================================================== *)
(** ** The accommodation manager *)
(* ================================================================== *)

Section LogFacts.
Import Async.
Context {Req S : Type}.

Lemma calls_app (l1 l2 : list (entry Req)) :
  calls (l1 ++ l2) = calls l1 ++ calls l2.
Proof. unfold calls. apply flat_map_app. Qed.

Lemma toasts_app (l1 l2 : list (entry Req)) :
  toasts (l1 ++ l2) = toasts l1 ++ toasts l2.
Proof. unfold toasts. apply flat_map_app. Qed.

Lemma calls_nil : calls (@nil (entry Req)) = [].
Proof. reflexivity. Qed.

Lemma calls_issued (r : Req) (l : list (entry Req)) :
  calls (Issued r :: l) = r :: calls l.
Proof. reflexivity. Qed.

Lemma calls_shown (t : toast) (l : list (entry Req)) :
  calls (Shown t :: l) = calls l.
Proof. reflexivity. Qed.

Lemma calls_console (l : list (entry Req)) :
  calls (ConsoleLogged :: l) = calls l.
Proof. reflexivity. Qed.

Lemma calls_invoked (c : String.string) (l : list (entry Req)) :
  calls (Invoked c :: l) = calls l.
Proof. reflexivity. Qed.

Lemma toasts_nil : toasts (@nil (entry Req)) = [].
Proof. reflexivity. Qed.

Lemma toasts_issued (r : Req) (l : list (entry Req)) :
  toasts (Issued r :: l) = toasts l.
Proof. reflexivity. Qed.

Lemma toasts_shown (t : toast) (l : list (entry Req)) :
  toasts (Shown t :: l) = t :: toasts l.
Proof. reflexivity. Qed.

Lemma toasts_console (l : list (entry Req)) :
  toasts (@ConsoleLogged Req :: l) = toasts l.
Proof. reflexivity. Qed.

Lemma toasts_invoked (c : String.string) (l : list (entry Req)) :
  toasts (@Invoked Req c :: l) = toasts l.
Proof. reflexivity. Qed.

End LogFacts.

Arguments Async.calls : simpl never.
Arguments Async.toasts : simpl never.

Ltac log_simpl :=
  cbn [Async.record Async.log Async.state Async.perform] in *;
  repeat rewrite <- app_assoc in *;
  repeat rewrite ?calls_app, ?toasts_app, ?calls_issued, ?calls_shown,
    ?calls_console, ?calls_invoked, ?toasts_issued, ?toasts_shown,
    ?toasts_console, ?toasts_invoked, ?calls_nil, ?toasts_nil in *;
  cbn [app] in *;
  repeat rewrite ?app_nil_r in *.

Section AccommodationFacts.
Import JS Async Accommodations.
Variable localeCompare : jstring -> jstring -> Z.

Local Abbreviation run := (Async.run Accommodations.update).
Local Abbreviation settle := (Async.settle Accommodations.update).
Local Abbreviation fetchBarangays :=
  (Accommodations.fetchBarangays localeCompare).

Arguments lit : simpl never.
Arguments municipality_barangays_url : simpl never.
Arguments city_barangays_url : simpl never.
Arguments municipalities_url : simpl never.
Arguments cities_url : simpl never.
Arguments sort : simpl never.

(** The address of an endpoint determines the code, and the two endpoint
    families share no address. *)
Lemma city_barangays_url_inj (c c' : jstring) :
  city_barangays_url c = city_barangays_url c' -> c = c'.
Proof.
  unfold city_barangays_url. intros H.
  apply app_inv_head in H. now apply app_inv_tail in H.
Qed.

Lemma municipality_barangays_url_inj (c c' : jstring) :
  municipality_barangays_url c = municipality_barangays_url c' -> c = c'.
Proof.
  unfold municipality_barangays_url. intros H.
  apply app_inv_head in H. now apply app_inv_tail in H.
Qed.

Lemma endpoints_differ (c c' : jstring) :
  municipality_barangays_url c <> city_barangays_url c'.
Proof. unfold municipality_barangays_url, city_barangays_url. discriminate. Qed.



(** How a barangay fetch ends: either on its [catch], with the failure
    toast and no state change, or by replacing the barangay set by the
    records of the response, without a toast. *)
Lemma fetchBarangays_outcome
    (code : jstring) (env : remote Request Answer) (n : nat)
    (w : world Request State) :
  let w' := run env n (fetchBarangays code) w in
  (state w' = state w /\ toasts (log w') = toasts (log w) ++ [load_failed])
  \/ (exists bs,
        state w' = update (setBarangays (barangaysOf localeCompare bs))
                          (state w)
        /\ toasts (log w') = toasts (log w)).
Proof.
  intros w'. subst w'. unfold Accommodations.fetchBarangays. cbn.
  destruct (env n (Fetch (municipality_barangays_url code)))
    as [response|]; cbn; [|left; log_simpl; split; reflexivity].
  destruct (ok response); cbn.
  - destruct (env (Datatypes.S n) (ReadJson response)) as [[|bs|]|]; cbn;
      try (left; log_simpl; split; reflexivity);
      right; [exists []|exists bs]; log_simpl; split; reflexivity.
  - destruct (env (Datatypes.S n) (Fetch (city_barangays_url code)))
      as [response2|]; cbn; [|left; log_simpl; split; reflexivity].
    destruct (env (Datatypes.S (Datatypes.S n)) (ReadJson response2))
      as [[|bs|]|]; cbn;
      try (left; log_simpl; split; reflexivity);
      right; [exists []|exists bs]; log_simpl; split; reflexivity.
Qed.

Lemma fetchAccommodations_silent
    (env : remote Request Answer) (n : nat) (w : world Request State) :
  silent update env n fetchAccommodations w.
Proof.
  unfold silent, fetchAccommodations. cbn.
  destruct (env n SelectAccommodations) as [[d|] [|]]; cbn; log_simpl;
    reflexivity.
Qed.

Lemma fetchMunicipalities_outcome
    (env : remote Request Answer) (n : nat) (w : world Request State) :
  let w' := run env n (fetchMunicipalities localeCompare) w in
  (state w' = state w
   /\ toasts (log w')
      = toasts (log w) ++ [municipalities_failed])
  \/ (exists ms,
        state w' = update (setMunicipalities (municipalitiesOf localeCompare ms))
                          (state w)
        /\ toasts (log w') = toasts (log w)).
Proof.
  intros w'. subst w'. unfold fetchMunicipalities. cbn.
  destruct (env n (FetchBoth municipalities_url cities_url))
    as [[muniRes cityRes]|]; cbn; [|left; log_simpl; split; reflexivity].
  destruct (env (Datatypes.S n) (ReadJsonBoth muniRes cityRes))
    as [[muniData cityData]|]; cbn; [|left; log_simpl; split; reflexivity].
  destruct muniData as [|ms|], cityData as [|cs|]; cbn;
    try (left; log_simpl; split; reflexivity); right.
  - exists []. log_simpl. split; reflexivity.
  - exists cs. log_simpl. split; reflexivity.
  - exists (ms ++ []). log_simpl. split; reflexivity.
  - exists (ms ++ cs). log_simpl. split; reflexivity.
Qed.


Lemma accommodation_submit_shows
    (s : State) (env : remote Request Answer) (n : nat)
    (w : world Request State) :
  shows update env n (handleSubmit s) w
    match editing s with
    | Some i =>
        submitted true
          (env n (UpdateAccommodation (accommodationData (formData s)) i))
    | None =>
        submitted false
          (env n (InsertAccommodation (accommodationData (formData s))))
    end.
Proof.
  unfold shows, handleSubmit. cbn.
  destruct (editing s) as [i|]; cbn.
  - destruct (env n (UpdateAccommodation _ i)); cbn; log_simpl;
      [|reflexivity].
    destruct (env (Datatypes.S n) SelectAccommodations) as [[d|] [|]]; cbn;
      log_simpl; reflexivity.
  - destruct (env n (InsertAccommodation _)); cbn; log_simpl;
      [|reflexivity].
    destruct (env (Datatypes.S n) SelectAccommodations) as [[d|] [|]]; cbn;
      log_simpl; reflexivity.
Qed.

Lemma accommodation_delete_shows
    (id : jstring) (env : remote Request Answer) (n : nat)
    (w : world Request State) :
  if env n confirm_delete
  then shows update env n (handleDelete id) w
         (deleted (env (Datatypes.S n) (DeleteAccommodation id)))
  else calls (log (run env n (handleDelete id) w))
       = calls (log w) ++ [confirm_delete].
Proof.
  unfold shows, handleDelete. fold confirm_delete. cbn.
  destruct (env n confirm_delete); cbn; log_simpl; [|reflexivity].
  destruct (env (Datatypes.S n) (DeleteAccommodation id)); cbn; log_simpl;
    [|reflexivity].
  destruct (env (Datatypes.S (Datatypes.S n)) SelectAccommodations)
    as [[d|] [|]]; cbn; log_simpl; reflexivity.
Qed.

Lemma review_submit_shows
    (p : ReviewForm.Props) (s : ReviewForm.State)
    (env : remote ReviewForm.Request ReviewForm.Answer) (n : nat)
    (w : world ReviewForm.Request ReviewForm.State) :
  shows ReviewForm.update env n (ReviewForm.handleSubmit p s) w
    (if (ReviewForm.rating s =? 0)%Z then ReviewForm.select_a_rating
     else match env n (ReviewForm.InsertReview (ReviewForm.sent_row p s)) with
          | DbOk => ReviewForm.submit_succeeded
          | DbError => ReviewForm.submit_failed
          end).
Proof.
  unfold shows, ReviewForm.handleSubmit. cbn.
  destruct (ReviewForm.rating s =? 0)%Z; cbn; log_simpl; [reflexivity|].
  rewrite or_null_trim. fold (ReviewForm.sent_row p s).
  destruct (env n (ReviewForm.InsertReview (ReviewForm.sent_row p s))); cbn;
    log_simpl; reflexivity.
Qed.

Lemma review_delete_shows
    (id : jstring) (env : remote ReviewList.Request ReviewList.Answer)
    (n : nat) (w : world ReviewList.Request unit) :
  shows ReviewList.update env n (ReviewList.handleDeleteReview id) w
    (ReviewList.review_deleted (env n (ReviewList.DeleteReview id))).
Proof.
  unfold shows, ReviewList.handleDeleteReview. cbn.
  destruct (env n (ReviewList.DeleteReview id)); cbn; log_simpl;
    reflexivity.
Qed.



Lemma str_eqb_eq (a b : jstring) : str_eqb a b = true <-> a = b.
Proof.
  revert b. induction a as [|x a IH]; intros [|y b]; cbn;
    try (split; [discriminate|discriminate]); [tauto|].
  rewrite andb_true_iff, N.eqb_eq, IH.
  split; [intros [-> ->]; reflexivity|intros [= -> ->]; split; reflexivity].
Qed.


(** The municipality dropdown: how a selection ends.  The barangay set is
    empty unless the fetch stored a response. *)
Lemma select_municipality_outcome
    (s : State) (code : jstring) (env : remote Request Answer) (n : nat)
    (w : world Request State) :
  let w' := run env n (handleMunicipalityChange localeCompare s code) w in
  barangays (state w') = []
  \/ (exists bs, barangays (state w') = barangaysOf localeCompare bs
                 /\ toasts (log w') = toasts (log w)).
Proof.
  intros w'. subst w'. unfold handleMunicipalityChange.
  cbn [Async.run set]. destruct (truthy code); [|left; reflexivity].
  match goal with
  | |- context [run env n (fetchBarangays ?c) ?w0] =>
      destruct (fetchBarangays_outcome c env n w0) as [[Hs Hl]|(bs & Hs & Hl)]
  end; rewrite Hs; cbn in Hl |- *.
  - left. reflexivity.
  - right. exists bs. split; [reflexivity|exact Hl].
Qed.


(** C2.  What a submission sends to the store is [accommodationData]: one
    update (when a record is edited) or one insert, issued before anything
    else.  Its category and amenities are the comma-separated tokens of
    the two texts, each trimmed, in the order of the text: they are the
    only lists that are tokens of the text in that sense.  There is one
    token more than there are commas, so the empty tokens of doubled or
    trailing commas are kept and equal tokens are kept. *)
Theorem submit_sends_trimmed_comma_tokens
    (s : State) (w : world Request State) :
  let d := accommodationData (formData s) in
  let sent :=
    match editing s with
    | Some i => UpdateAccommodation d i
    | None => InsertAccommodation d
    end in
  calls (log (fst (settle (handleSubmit s) w))) = calls (log w) ++ [sent]
  /\ d_category d = map trim (split comma (category (formData s)))
  /\ d_amenities d = map trim (split comma (amenities (formData s)))
  /\ tokens_of (category (formData s)) (d_category d)
  /\ tokens_of (amenities (formData s)) (d_amenities d)
  /\ (forall toks, tokens_of (category (formData s)) toks ->
                   toks = d_category d)
  /\ (forall toks, tokens_of (amenities (formData s)) toks ->
                   toks = d_amenities d)
  /\ List.length (d_category d)
     = Datatypes.S (count_occ N.eq_dec (category (formData s)) comma)
  /\ List.length (d_amenities d)
     = Datatypes.S (count_occ N.eq_dec (amenities (formData s)) comma).
Proof.
  intros d sent. subst d sent.
  split.
  { unfold handleSubmit. cbn. destruct (editing s); cbn; log_simpl;
      reflexivity. }
  cbn [accommodationData d_category d_amenities].
  split; [reflexivity|]. split; [reflexivity|].
  split; [apply split_trim_tokens|]. split; [apply split_trim_tokens|].
  split; [apply tokens_of_unique|]. split; [apply tokens_of_unique|].
  rewrite !length_map, !length_split. split; reflexivity.
Qed.

End AccommodationFacts.

(* ================================================================== *)
(** ** The accommodation manager as a system: who fills the barangay set *)
(* ================================================================== *)

Section SystemFacts.
Import JS Async Accommodations.
Variable localeCompare : jstring -> jstring -> Z.

Local Abbreviation settle := (Async.settle Accommodations.update).
Local Abbreviation step := (Accommodations.step localeCompare).
Local Abbreviation steps := (Accommodations.steps localeCompare).
Local Abbreviation handlers := (Accommodations.handlers localeCompare).
Local Abbreviation fetchBarangays :=
  (Accommodations.fetchBarangays localeCompare).

Lemma calm_loader (p : Prog) : calm false p -> calm true p.
Proof.
  induction p as [|e k IH|r k IH]; cbn; [trivial| |].
  - intros [He Hk]. split; auto.
  - intros [(H & _)|H]; [discriminate|]. right. intros x. apply IH, H.
Qed.

Lemma calm_any (b : bool) (p : Prog) : calm false p -> calm b p.
Proof. destruct b; [apply calm_loader|trivial]. Qed.

Lemma fetchAccommodations_calm : calm false fetchAccommodations.
Proof. right. intros [[d|] [|]]; cbn; auto. Qed.

Lemma fetchMunicipalities_calm :
  calm false (fetchMunicipalities localeCompare).
Proof.
  right. intros [[muniRes cityRes]|]; cbn; [|auto].
  right. intros [[muniData cityData]|]; cbn; [|auto].
  destruct (records muniData), (records cityData); cbn; auto.
Qed.

Lemma fetchBarangays_calm (code : jstring) : calm true (fetchBarangays code).
Proof.
  unfold Accommodations.fetchBarangays.
  right. intros [response|]; cbn; [|auto].
  destruct (ok response); cbn.
  - left. split; [reflexivity|]. split; [reflexivity|].
    intros [data|]; cbn; [|trivial]. destruct (records data); cbn; trivial.
  - right. intros [response2|]; cbn; [|auto].
    left. split; [reflexivity|]. split; [reflexivity|].
    intros [data|]; cbn; [|trivial]. destruct (records data); cbn; trivial.
Qed.

Lemma resetForm_calm (b : bool) (k : Prog) : calm b k -> calm b (resetForm k).
Proof. cbn. auto. Qed.

Lemma handleSubmit_calm (s : State) : calm false (handleSubmit s).
Proof.
  unfold handleSubmit. cbn [calm]. split; [exact I|].
  pose proof fetchAccommodations_calm as F.
  destruct (editing s); right; intros [|];
    cbn [calm resetForm set keeps_empty]; repeat (split; [exact I|]);
    solve [exact F|exact I].
Qed.

Lemma handleDelete_calm (id : jstring) : calm false (handleDelete id).
Proof.
  pose proof fetchAccommodations_calm as F.
  right. intros [|]; cbn [negb calm]; [|exact I].
  right. intros [|]; cbn [calm keeps_empty]; repeat (split; [exact I|]);
    solve [exact F|exact I].
Qed.

Lemma handlers_calm (s : State) (a : Action) :
  Forall (calm (loads_barangays a)) (handlers s a).
Proof.
  destruct a; cbn [Accommodations.handlers loads_barangays].
  - constructor; [apply fetchAccommodations_calm|].
    constructor; [apply fetchMunicipalities_calm|constructor].
  - constructor; [cbn; auto|constructor].
  - constructor; [cbn; auto|constructor].
  - constructor; [cbn; auto|constructor].
  - constructor; [cbn; auto|constructor].
  - constructor; [cbn; auto|constructor].
  - constructor; [|constructor].
    unfold handleMunicipalityChange. cbn [calm set keeps_empty].
    split; [exact I|]. split; [exact I|].
    destruct (truthy code); [apply fetchBarangays_calm|exact I].
  - constructor; [cbn; auto|constructor].
  - constructor; [apply handleSubmit_calm|constructor].
  - constructor; [|constructor].
    unfold handleEdit. cbn [calm set keeps_empty].
    split; [exact I|]. split; [exact I|]. split; [exact I|].
    destruct (truthy (a_municipality accommodation)); [|exact I].
    destruct (find _ _); [apply fetchBarangays_calm|exact I].
  - constructor; [apply handleDelete_calm|constructor].
Qed.

Lemma settle_calm (b : bool) (p : Prog) (w : world Request State) :
  calm b p -> calm b (snd (settle p w)).
Proof.
  revert w. induction p as [|e k IH|r k IH]; intros w; cbn; [trivial| |trivial].
  intros [_ H]. apply IH, H.
Qed.

Lemma perform_keeps_empty (e : effect Setter) (w : world Request State) :
  keeps_empty e -> barangays (state w) = [] ->
  barangays (state (perform update e w)) = [].
Proof.
  destruct e as [u| | | |]; cbn; trivial.
  destruct u as [| | | |[|x l]|]; cbn; trivial. contradiction.
Qed.

Lemma settle_keeps_empty (b : bool) (p : Prog) (w : world Request State) :
  calm b p -> barangays (state w) = [] ->
  barangays (state (fst (settle p w))) = [].
Proof.
  revert w. induction p as [|e k IH|r k IH]; intros w; cbn; [trivial| |trivial].
  intros [He H] Hw. apply IH; [exact H|]. now apply perform_keeps_empty.
Qed.

Lemma settle_final (p : Prog) (w : world Request State) :
  final p -> snd (settle p w) = Done.
Proof.
  revert w. induction p as [|e k IH|r k IH]; intros w; cbn;
    [reflexivity|apply IH|contradiction].
Qed.

Lemma start_eq (a : Action) (sys : System) (p : Prog) :
  start a sys p
  = {| now := fst (settle p (now sys));
       tasks := suspend a (snd (settle p (now sys))) (tasks sys) |}.
Proof. unfold start. now destruct (settle p (now sys)). Qed.

Lemma suspend_calm (a : Action) (p : Prog) (ts : list Task) :
  calm (loads_barangays a) p ->
  Forall (fun t => calm (loads_barangays (origin t)) (pending t)) ts ->
  Forall (fun t => calm (loads_barangays (origin t)) (pending t))
         (suspend a p ts).
Proof.
  intros Hp Hts. destruct p; cbn [suspend]; trivial.
  apply Forall_app. split; [exact Hts|].
  constructor; [exact Hp|constructor].
Qed.

Lemma start_calm (a : Action) (sys : System) (p : Prog) :
  calm (loads_barangays a) p -> calm_tasks sys -> calm_tasks (start a sys p).
Proof.
  intros Hp Hs. rewrite start_eq. unfold calm_tasks. cbn.
  apply suspend_calm; [now apply settle_calm|exact Hs].
Qed.

Lemma start_keeps_empty (a : Action) (sys : System) (p : Prog) :
  calm (loads_barangays a) p -> barangays (state (now sys)) = [] ->
  barangays (state (now (start a sys p))) = [].
Proof. intros Hp Hs. rewrite start_eq. cbn. eapply settle_keeps_empty; eauto. Qed.

Lemma starts_calm (a : Action) (ps : list Prog) (sys : System) :
  Forall (calm (loads_barangays a)) ps -> calm_tasks sys ->
  calm_tasks (fold_left (start a) ps sys)
  /\ (barangays (state (now sys)) = [] ->
      barangays (state (now (fold_left (start a) ps sys))) = []).
Proof.
  revert sys. induction ps as [|p ps IH]; intros sys Hps Hs; cbn.
  - split; trivial.
  - inversion Hps as [|? ? Hp Hps']; subst.
    destruct (IH (start a sys p) Hps' (start_calm a sys p Hp Hs)) as [H1 H2].
    split; [exact H1|]. intros He. apply H2. now apply start_keeps_empty.
Qed.

Lemma remove_nth_Forall {A} (P : A -> Prop) (i : nat) (l : list A) :
  Forall P l -> Forall P (remove_nth i l).
Proof.
  revert i. induction l as [|x l IH]; intros [|i] H; cbn; trivial;
    inversion H; subst; auto.
Qed.

(** What resolving the [i]-th suspended handler does. *)
Lemma resolve_calm (i : nat) (ans : Answers) (sys : System) :
  calm_tasks sys ->
  calm_tasks (resolve i ans sys)
  /\ (barangays (state (now sys)) = [] ->
      barangays_resolve sys (Resolve i ans) = false ->
      barangays (state (now (resolve i ans sys))) = []).
Proof.
  intros Hs. unfold resolve, barangays_resolve.
  destruct (nth_error (tasks sys) i) as [[a p]|] eqn:En; [|split; trivial].
  destruct p as [|e k|r k]; [split; trivial|split; trivial|].
  assert (Hc : calm (loads_barangays a) (Await r k)).
  { unfold calm_tasks in Hs. rewrite Forall_forall in Hs.
    exact (Hs _ (nth_error_In _ _ En)). }
  assert (Hr : Forall (fun t => calm (loads_barangays (origin t)) (pending t))
                 (remove_nth i (tasks sys)))
    by (apply remove_nth_Forall; exact Hs).
  destruct (settle (k (ans r)) (now sys)) as [w' p'] eqn:Es.
  assert (E1 : w' = fst (settle (k (ans r)) (now sys))) by now rewrite Es.
  assert (E2 : p' = snd (settle (k (ans r)) (now sys))) by now rewrite Es.
  cbn in Hc. destruct Hc as [(Hl & Hj & Hf)|Hc].
  - split.
    + unfold calm_tasks. cbn. rewrite E2, settle_final by apply Hf.
      exact Hr.
    + intros _ Hn. rewrite Hl in Hn. destruct r; discriminate.
  - split.
    + unfold calm_tasks. cbn. apply suspend_calm; [|exact Hr].
      rewrite E2. apply settle_calm, Hc.
    + intros He _. cbn. rewrite E1. eapply settle_keeps_empty; eauto.
Qed.

Lemma step_calm (sys : System) (l : Step) :
  calm_tasks sys ->
  calm_tasks (step sys l)
  /\ (barangays (state (now sys)) = [] ->
      barangays_resolve sys l = false ->
      barangays (state (now (step sys l))) = []).
Proof.
  intros Hs. destruct l as [a|i ans]; cbn [Accommodations.step].
  - destruct (starts_calm a (handlers (state (now sys)) a) sys
                (handlers_calm _ a) Hs) as [H1 H2].
    split; [exact H1|]. intros He _. exact (H2 He).
  - now apply resolve_calm.
Qed.

(** Every state the component reaches has calm suspended handlers. *)
Lemma reachable_calm (tr : list Step) : calm_tasks (steps boot tr).
Proof.
  assert (G : forall sys, calm_tasks sys -> calm_tasks (steps sys tr)).
  { induction tr as [|l tr IH]; intros sys Hs; cbn; [exact Hs|].
    apply IH. now apply step_calm. }
  apply G. constructor.
Qed.

Lemma unresolved_keeps_empty (tr : list Step) (sys : System) :
  calm_tasks sys -> barangays (state (now sys)) = [] ->
  unresolved localeCompare sys tr = true ->
  barangays (state (now (steps sys tr))) = [].
Proof.
  revert sys. induction tr as [|l tr IH]; intros sys Hs He Hu; cbn;
    [exact He|].
  cbn in Hu. apply andb_true_iff in Hu as [Hl Hu].
  apply negb_true_iff in Hl.
  destruct (step_calm sys l Hs) as [H1 H2].
  apply IH; auto.
Qed.


End SystemFacts.

(* ================================================================== *)
(** ** The accommodation manager on sample data *)
(* ================================================================== *)

Section AccommodationSamples.
Import JS Async Accommodations Samples.

Local Abbreviation run := (Async.run Accommodations.update).
Local Abbreviation settle := (Async.settle Accommodations.update).

(** C4 on the edit path.  The barangay set still holds a barangay of
    Legazpi from an earlier edit; a record in Daraga is edited while the
    geographic service cannot be reached.  The failure toast is shown, and
    the barangay set is what it was, not empty. *)
Lemma edit_with_failed_fetch_keeps_barangays :
  let w' := run offline 0 (handleEdit unitCompare stale inn) (World stale [])
  in
  municipality (formData (state w')) = lit "Daraga"
  /\ toasts (log w') = [load_failed]
  /\ barangays (state w') = [bitano].
Proof. vm_compute. repeat split. Qed.

(** The same failure after a selection in the dropdown leaves the set
    empty. *)
Lemma select_with_failed_fetch_leaves_no_barangays :
  let w' := run offline 0
              (handleMunicipalityChange unitCompare stale (m_code daraga))
              (World stale [])
  in
  toasts (log w') = [load_failed] /\ barangays (state w') = [].
Proof. vm_compute. repeat split. Qed.






Lemma submit_sends_trimmed_comma_tokens_witness :
  d_category (accommodationData draft)
  = [lit "a"; lit "b"; lit ""; lit "c"; lit ""]
  /\ d_amenities (accommodationData draft)
     = [lit "WiFi"; lit "Pool"; lit "WiFi"]
  /\ calls (log (fst (settle (handleSubmit drafting) (World drafting []))))
     = [InsertAccommodation (accommodationData draft)].
Proof.
  pose proof (submit_sends_trimmed_comma_tokens drafting (World drafting []))
    as (H1 & _ & _ & H2 & H3 & H4 & H5 & _).
  split; [symmetry; apply H4|split; [symmetry; apply H5|exact H1]].
  - exists [lit "a"; lit " b "; lit ""; lit "c "; lit ""].
    split; [repeat split; try discriminate; repeat constructor;
            intros H; cbn in H; intuition discriminate|].
    repeat constructor.
    + exists [], []. repeat split.
    + exists (lit " "), (lit " "). repeat split.
    + exists [], []. repeat split.
    + exists [], (lit " "). repeat split.
    + exists [], []. repeat split.
  - exists [lit "WiFi"; lit "Pool"; lit " WiFi"].
    split; [repeat split; try discriminate; repeat constructor;
            intros H; cbn in H; intuition discriminate|].
    repeat constructor.
    + exists [], []. repeat split.
    + exists [], []. repeat split.
    + exists (lit " "), []. repeat split.
Defined.


(** What "a barangay fetch resolves" covers: Daraga is selected, then
    Legazpi; the fetch started for Daraga resolves while the one for
    Legazpi is still pending, and fills the set. *)
Example earlier_fetch_resolves_after_a_new_selection :
  let sys := {| now := World loaded []; tasks := [] |} in
  let tr := [User (SelectMunicipality (m_code daraga));
             User (SelectMunicipality (m_code legazpi));
             Resolve 0 succeeding;
             Resolve 1 succeeding] in
  let sys' := steps unitCompare sys tr in
  unresolved unitCompare sys tr = false
  /\ municipality (formData (state (now sys'))) = lit "Legazpi City"
  /\ barangays (state (now sys')) = [anislag]
  /\ map origin (tasks sys') = [SelectMunicipality (m_code legazpi)].
Proof. vm_compute. repeat split. Qed.

End AccommodationSamples.

(* ================================================================== *)
(** ** The review list *)
(* ================================================================== *)

Section ReviewListFacts.
Import JS ReviewList Samples.
Local Open Scope Q_scope.

Lemma noun_singular (rs : list Review) :
  noun rs = lit "review" <-> List.length rs = 1%nat.
Proof.
  unfold noun. destruct (Nat.eqb_spec (List.length rs) 1) as [E|E].
  - tauto.
  - split; [discriminate|contradiction].
Qed.

(** C9.  For a non-empty collection of reviews with integer ratings from
    0 to 5 (an array has fewer than 2^32 elements), the text of the average
    is a numeral with one digit after the point, and the value it denotes
    differs from the arithmetic mean of the ratings by at most 0.05: it is
    the mean to one decimal place.  For the ratings 5, 4, 3 the text is
    "4.0".  The count is followed by "review" exactly when there is one
    review, and by "reviews" otherwise. *)
Theorem average_text_and_count_noun (rs : list Review) (zs : list Z) :
  rs <> [] ->
  map rating rs = map of_Z zs ->
  Forall (fun z => (0 <= z <= 5)%Z) zs ->
  (Z.of_nat (List.length rs) < 2 ^ 32)%Z ->
  (exists n : Z,
     (0 <= n)%Z
     /\ averageText rs = Some (one_decimal n)
     /\ Qabs (inject_Z n / 10 - mean zs) <= 1 # 20)
  /\ averageText five_four_three = Some (lit "4.0")
  /\ (forall viewer,
        render {| currentUserId := viewer; reviews := rs; isLoading := false |}
        = Listing (averageText rs) (countText rs)
            (map (fun r =>
                    (r, canDelete {| currentUserId := viewer; reviews := rs;
                                     isLoading := false |} r))
                 rs))
  /\ countText rs
     = lit "(" ++ int_to_string (Z.of_nat (List.length rs)) ++ lit " "
       ++ noun rs ++ lit ")"
  /\ (noun rs = lit "review" <-> List.length rs = 1%nat)
  /\ (noun rs = lit "reviews" <-> List.length rs <> 1%nat).
Proof.
  intros Hne E F Hlen.
  split; [now apply average_of_integers|].
  split; [reflexivity|].
  split; [intros viewer; unfold render; cbn; destruct rs;
          [contradiction|reflexivity]|].
  split; [reflexivity|].
  split; [apply noun_singular|].
  unfold noun. destruct (Nat.eqb_spec (List.length rs) 1) as [E1|E1].
  - split; [discriminate|contradiction].
  - tauto.
Qed.

Lemma average_text_and_count_noun_witness :
  (exists n : Z,
     (0 <= n)%Z
     /\ averageText five_four_three = Some (one_decimal n)
     /\ Qabs (inject_Z n / 10 - mean [5; 4; 3]%Z) <= 1 # 20)
  /\ noun five_four_three = lit "reviews".
Proof.
  pose proof (average_text_and_count_noun five_four_three [5; 4; 3]%Z)
    as H.
  destruct H as (H1 & _ & _ & _ & _ & H2).
  - discriminate.
  - reflexivity.
  - repeat constructor; lia.
  - reflexivity.
  - split; [exact H1|]. apply H2. discriminate.
Defined.

Example mean_of_five_four_three : mean [5; 4; 3]%Z == 4.
Proof. reflexivity. Qed.

Example one_review : countText [rated 3] = lit "(1 review)".
Proof. reflexivity. Qed.

Example two_reviews : countText [rated 3; rated 5] = lit "(2 reviews)".
Proof. reflexivity. Qed.

(** At a mean half-way between two tenths the text is one of the two
    neighbours: the binary64 nearest to 4.35 lies below it, the one of
    1.25 is exact. *)
Example ties_between_tenths :
  mean (repeat 4 13 ++ repeat 5 7)%Z == 435 # 100
  /\ averageText mean_4_35 = Some (lit "4.3")
  /\ averageText [rated 1; rated 1; rated 1; rated 2] = Some (lit "1.3").
Proof. vm_compute. repeat split. Qed.

End ReviewListFacts.

(* ================================================================== *)
(** ** Editing and submitting again *)
(* ================================================================== *)

Section TokenRoundTrip.
Import JS AccommodationsView.

(** The pieces of [join ", " l]: every token but the first with a space
    before it. *)
Lemma join_comma_space (t : jstring) (ts : list jstring) :
  join [comma] (t :: map (cons space) ts) = join (lit ", ") (t :: ts).
Proof.
  revert t. induction ts as [|u us IH]; intros t; [reflexivity|].
  cbn [map]. rewrite !join_cons_more, join_cons_token, IH. reflexivity.
Qed.

Lemma split_join_comma_space (t : jstring) (ts : list jstring) :
  Forall (fun x => ~ In comma x) (t :: ts) ->
  split comma (join (lit ", ") (t :: ts)) = t :: map (cons space) ts.
Proof.
  intros F. symmetry.
  apply (cut_at_unique comma (join (lit ", ") (t :: ts)));
    [|apply split_cut_at].
  split; [discriminate|]. split; [apply join_comma_space|].
  inversion F as [|? ? Ht Hts]; subst. constructor; [exact Ht|].
  apply Forall_map. eapply Forall_impl; [|exact Hts].
  intros x Hx [H|H]; [discriminate H|contradiction].
Qed.

Lemma trim_clean (t : jstring) : clean t -> trim t = t.
Proof.
  intros (_ & Hb & He). symmetry. apply trimmed_of_trim.
  exists [], []. rewrite app_nil_r. repeat split; assumption.
Qed.

Lemma trim_space_clean (t : jstring) : clean t -> trim (space :: t) = t.
Proof.
  intros (_ & Hb & He). symmetry. apply trimmed_of_trim.
  exists [space], []. rewrite app_nil_r. repeat split; assumption.
Qed.

Lemma clean_no_comma (l : list jstring) :
  Forall clean l -> Forall (fun x => ~ In comma x) l.
Proof. apply Forall_impl. intros x H. apply H. Qed.

Lemma tokens_of_joined (l : list jstring) :
  l <> [] -> Forall clean l ->
  map trim (split comma (join (lit ", ") l)) = l.
Proof.
  intros Hne F. destruct l as [|t ts]; [contradiction|].
  rewrite split_join_comma_space by (apply clean_no_comma; exact F).
  inversion F as [|? ? Ht Hts]; subst. cbn [map].
  rewrite trim_clean by exact Ht. f_equal.
  rewrite map_map. clear Ht F Hne.
  induction Hts as [|u us Hu _ IH]; [reflexivity|].
  cbn [map]. now rewrite trim_space_clean, IH.
Qed.

Lemma trim_is_clean (r : jstring) : ~ In comma r -> clean (trim r).
Proof.
  intros Hr. destruct (trim_trimmed_of r) as (a & b & E & _ & _ & Hb & He).
  split; [|split; assumption].
  intros H. apply Hr. rewrite E. apply in_or_app. right.
  apply in_or_app. now left.
Qed.

Lemma tokens_are_clean (x : jstring) :
  Forall clean (map trim (split comma x)).
Proof.
  apply Forall_map. eapply Forall_impl; [|apply split_no_sep].
  intros r Hr. now apply trim_is_clean.
Qed.

End TokenRoundTrip.


Section EditAndSubmit.
Import JS Async Accommodations AccommodationsView.
Variable localeCompare : jstring -> jstring -> Z.

Local Abbreviation settle := (Async.settle Accommodations.update).
Local Abbreviation run := (Async.run Accommodations.update).

(** The state when [handleEdit] returns: the form holds the record, the
    dialog is open in edit mode; the lists are untouched. *)
Lemma handleEdit_settled
    (s : State) (a : Accommodation) (w : world Request State) :
  state (fst (settle (handleEdit localeCompare s a) w))
  = {| accommodations := accommodations (state w);
       isOpen := true;
       editingId := Some (a_id a);
       municipalities := municipalities (state w);
       barangays := barangays (state w);
       formData :=
         {| name := a_name a; description := a_description a;
            location := a_location a; municipality := a_municipality a;
            category := join (lit ", ") (a_category a);
            image_url := a_image_url a;
            contact_number := a_contact_number a; email := a_email a;
            price_range := a_price_range a;
            amenities := join (lit ", ") (a_amenities a);
            rating := a_rating a |} |}.
Proof.
  unfold handleEdit. cbn [Async.settle set Async.perform].
  destruct (truthy (a_municipality a)); [|reflexivity].
  destruct (find _ _); reflexivity.
Qed.



End EditAndSubmit.

(* ================================================================== *)
(** ** Sorting, and handlers that keep an invariant *)
(* ================================================================== *)

Section SortFacts.
Import JS Async Accommodations AccommodationsView.
Context {A : Type}.
Variable cmp : A -> A -> Z.

Lemma insert_sorted_perm (x : A) (l : list A) :
  Permutation (insert_sorted cmp x l) (x :: l).
Proof.
  induction l as [|y l IH]; cbn; [reflexivity|].
  destruct (cmp y x <? 0)%Z; [|reflexivity].
  rewrite IH. apply perm_swap.
Qed.

(** Sorting keeps every element, as often as it occurs. *)
Lemma sort_perm (l : list A) : Permutation (sort cmp l) l.
Proof.
  unfold sort. induction l as [|x l IH]; cbn; [reflexivity|].
  rewrite insert_sorted_perm. now constructor.
Qed.

Hypothesis cmp_consistent : forall a b, (0 <= cmp a b)%Z -> (cmp b a <= 0)%Z.

Lemma insert_sorted_hd (y x : A) (l : list A) :
  (cmp y x <= 0)%Z ->
  HdRel (fun a b => (cmp a b <= 0)%Z) y l ->
  HdRel (fun a b => (cmp a b <= 0)%Z) y (insert_sorted cmp x l).
Proof.
  intros Hyx H. destruct l as [|z l]; cbn; [now constructor|].
  destruct (cmp z x <? 0)%Z; constructor; [|exact Hyx].
  now inversion H.
Qed.

Lemma insert_sorted_in_order (x : A) (l : list A) :
  in_order cmp l -> in_order cmp (insert_sorted cmp x l).
Proof.
  unfold in_order. induction l as [|y l IH]; intros H; cbn.
  - repeat constructor.
  - inversion H as [|? ? Hs Hh]; subst.
    destruct (Z.ltb_spec (cmp y x) 0) as [Hlt|Hge].
    + constructor; [now apply IH|]. apply insert_sorted_hd; [lia|exact Hh].
    + constructor; [exact H|]. constructor. now apply cmp_consistent.
Qed.

(** With a consistent comparator the result is in order. *)
Lemma sort_in_order (l : list A) : in_order cmp (sort cmp l).
Proof.
  unfold sort. induction l as [|x l IH]; cbn; [constructor|].
  now apply insert_sorted_in_order.
Qed.

End SortFacts.

Section AlwaysFacts.
Import Async Invariants.
Context {Req : Type} {Ans : Req -> Type} {U S : Type}.
Variable update : U -> S -> S.
Variable P : effect U -> Prop.
Variable Q : Req -> Prop.
Variable I : world Req S -> Prop.
Hypothesis effects_keep : forall e w, P e -> I w -> I (perform update e w).
Hypothesis requests_keep : forall r w, Q r -> I w -> I (record (Issued r) w).

Lemma settle_always (p : prog Req Ans U) (w : world Req S) :
  always P Q p -> I w ->
  I (fst (settle update p w)) /\ always P Q (snd (settle update p w)).
Proof.
  revert w. induction p as [|e k IH|r k IH]; intros w Hp Hw; cbn.
  - now split.
  - destruct Hp as [He Hk]. apply IH; auto.
  - split; [|exact Hp]. apply requests_keep; [apply Hp|exact Hw].
Qed.

Lemma run_always (env : remote Req Ans) (n : nat) (p : prog Req Ans U)
    (w : world Req S) :
  always P Q p -> I w -> I (run update env n p w).
Proof.
  revert n w. induction p as [|e k IH|r k IH]; intros n w Hp Hw; cbn.
  - exact Hw.
  - destruct Hp as [He Hk]. apply IH; auto.
  - destruct Hp as [Hr Hk]. apply IH; auto.
Qed.

End AlwaysFacts.

Section OrderInvariant.
Import JS Async Invariants Accommodations AccommodationsView.
Variable localeCompare : jstring -> jstring -> Z.
Hypothesis compare_consistent : consistent localeCompare.

Local Abbreviation settle := (Async.settle Accommodations.update).
Local Abbreviation ordered := (ordered_prog localeCompare).
Local Abbreviation world_in_order := (ordered_world localeCompare).
Local Abbreviation tasks_ordered := (ordered_tasks localeCompare).

Lemma barangaysOf_in_order (bs : list GeoRecord) :
  barangays_in_order localeCompare (barangaysOf localeCompare bs).
Proof.
  apply sort_in_order. intros a b. apply compare_consistent.
Qed.

Lemma municipalitiesOf_in_order (ms : list GeoRecord) :
  municipalities_in_order localeCompare (municipalitiesOf localeCompare ms).
Proof.
  apply sort_in_order. intros a b. apply compare_consistent.
Qed.

Lemma perform_in_order (e : effect Setter) (w : world Request State) :
  stores_in_order localeCompare e -> world_in_order w ->
  world_in_order (perform update e w).
Proof.
  unfold ordered_world, lists_in_order.
  destruct e as [u| | | |]; cbn; trivial.
  destruct u; cbn; tauto.
Qed.

Lemma record_in_order (r : Request) (w : world Request State) :
  True -> world_in_order w -> world_in_order (record (Issued r) w).
Proof. trivial. Qed.

Lemma fetchAccommodations_ordered : ordered fetchAccommodations.
Proof. split; [exact I|]. intros [[d|] [|]]; cbn; auto. Qed.

Lemma fetchMunicipalities_ordered :
  ordered (fetchMunicipalities localeCompare).
Proof.
  split; [exact I|]. intros [[muniRes cityRes]|]; cbn; [|auto].
  split; [exact I|]. intros [[muniData cityData]|]; cbn; [|auto].
  destruct (records muniData), (records cityData); cbn; auto.
  split; [|exact I]. apply municipalitiesOf_in_order.
Qed.

Lemma fetchBarangays_ordered (code : jstring) :
  ordered (fetchBarangays localeCompare code).
Proof.
  unfold fetchBarangays.
  split; [exact I|]. intros [response|]; cbn; [|auto].
  destruct (ok response); cbn.
  - split; [exact I|]. intros [data|]; cbn; [|auto].
    destruct (records data); cbn; auto.
    split; [|exact I]. apply barangaysOf_in_order.
  - split; [exact I|]. intros [response2|]; cbn; [|auto].
    split; [exact I|]. intros [data|]; cbn; [|auto].
    destruct (records data); cbn; auto.
    split; [|exact I]. apply barangaysOf_in_order.
Qed.

Lemma nil_in_order {A} (cmp : A -> A -> Z) : in_order cmp [].
Proof. constructor. Qed.

Lemma handleSubmit_ordered (s : State) : ordered (handleSubmit s).
Proof.
  pose proof fetchAccommodations_ordered as F.
  unfold handleSubmit. split; [exact I|].
  destruct (editing s); (split; [exact I|]); intros [|];
    cbn [always resetForm set stores_in_order];
    repeat (split; [first [exact I|apply nil_in_order]|]);
    first [exact I|exact (proj2 F)].
Qed.

Lemma handleDelete_ordered (id : jstring) : ordered (handleDelete id).
Proof.
  pose proof fetchAccommodations_ordered as F.
  split; [exact I|]. intros [|]; cbn [negb always]; [|exact I].
  split; [exact I|]. intros [|]; cbn [always stores_in_order];
    repeat (split; [exact I|]); first [exact I|exact (proj2 F)].
Qed.

Lemma handlers_ordered (s : State) (a : Action) :
  Forall ordered (handlers localeCompare s a).
Proof.
  destruct a as [| | | | | |c|c| |acc|id]; cbn [handlers].
  - constructor; [apply fetchAccommodations_ordered|].
    constructor; [apply fetchMunicipalities_ordered|constructor].
  - constructor; [|constructor]. cbn. repeat split. apply nil_in_order.
  - constructor; [cbn; auto|constructor].
  - constructor; [|constructor]. cbn. repeat split. apply nil_in_order.
  - constructor; [cbn; auto|constructor].
  - constructor; [cbn; auto|constructor].
  - constructor; [|constructor].
    unfold handleMunicipalityChange. cbn [always set stores_in_order].
    split; [exact I|]. split; [apply nil_in_order|].
    destruct (truthy c); [apply fetchBarangays_ordered|exact I].
  - constructor; [cbn; auto|constructor].
  - constructor; [apply handleSubmit_ordered|constructor].
  - constructor; [|constructor].
    unfold handleEdit. cbn [always set stores_in_order].
    split; [exact I|]. split; [exact I|]. split; [exact I|].
    destruct (truthy (a_municipality acc)); [|exact I].
    destruct (find _ _); [apply fetchBarangays_ordered|exact I].
  - constructor; [apply handleDelete_ordered|constructor].
Qed.

Lemma suspend_ordered (a : Action) (p : Prog) (ts : list Task) :
  ordered p -> Forall (fun t => ordered (pending t)) ts ->
  Forall (fun t => ordered (pending t)) (suspend a p ts).
Proof.
  intros Hp Hts. destruct p; cbn [suspend]; trivial.
  apply Forall_app. split; [exact Hts|]. constructor; [exact Hp|constructor].
Qed.

Lemma start_ordered (a : Action) (sys : System) (p : Prog) :
  ordered p -> tasks_ordered sys -> world_in_order (now sys) ->
  tasks_ordered (start a sys p) /\ world_in_order (now (start a sys p)).
Proof.
  intros Hp Ht Hw. rewrite start_eq.
  destruct (settle_always update _ _ world_in_order perform_in_order
              record_in_order p (now sys) Hp Hw) as [H1 H2].
  split; [|exact H1]. unfold ordered_tasks. cbn. now apply suspend_ordered.
Qed.

Lemma starts_ordered (a : Action) (ps : list Prog) (sys : System) :
  Forall ordered ps -> tasks_ordered sys -> world_in_order (now sys) ->
  tasks_ordered (fold_left (start a) ps sys)
  /\ world_in_order (now (fold_left (start a) ps sys)).
Proof.
  revert sys. induction ps as [|p ps IH]; intros sys Hps Ht Hw; cbn.
  - now split.
  - inversion Hps as [|? ? Hp Hps']; subst.
    destruct (start_ordered a sys p Hp Ht Hw) as [H1 H2]. now apply IH.
Qed.

Lemma resolve_ordered (i : nat) (ans : Answers) (sys : System) :
  tasks_ordered sys -> world_in_order (now sys) ->
  tasks_ordered (resolve i ans sys)
  /\ world_in_order (now (resolve i ans sys)).
Proof.
  intros Ht Hw. unfold resolve.
  destruct (nth_error (tasks sys) i) as [[a p]|] eqn:En; [|now split].
  destruct p as [|e k|r k]; [now split|now split|].
  assert (Hc : ordered (Await r k)).
  { unfold ordered_tasks in Ht. rewrite Forall_forall in Ht.
    exact (Ht _ (nth_error_In _ _ En)). }
  assert (Hr : Forall (fun t => ordered (pending t))
                 (remove_nth i (tasks sys)))
    by (apply remove_nth_Forall; exact Ht).
  destruct Hc as [_ Hk].
  destruct (settle_always update _ _ world_in_order perform_in_order
              record_in_order (k (ans r)) (now sys) (Hk _) Hw) as [H1 H2].
  destruct (settle (k (ans r)) (now sys)) as [w' p']. cbn in H1, H2.
  split; [|exact H1]. unfold ordered_tasks. cbn. now apply suspend_ordered.
Qed.

Lemma step_ordered (sys : System) (l : Step) :
  tasks_ordered sys -> world_in_order (now sys) ->
  tasks_ordered (step localeCompare sys l)
  /\ world_in_order (now (step localeCompare sys l)).
Proof.
  intros Ht Hw. destruct l as [a|i ans]; cbn [step].
  - apply starts_ordered; [apply handlers_ordered|exact Ht|exact Hw].
  - now apply resolve_ordered.
Qed.

Lemma steps_ordered (tr : list Step) (sys : System) :
  tasks_ordered sys -> world_in_order (now sys) ->
  world_in_order (now (steps localeCompare sys tr)).
Proof.
  revert sys. induction tr as [|l tr IH]; intros sys Ht Hw; cbn;
    [exact Hw|].
  destruct (step_ordered sys l Ht Hw) as [H1 H2]. now apply IH.
Qed.

End OrderInvariant.

(* ================================================================== *)
(** ** The accommodation manager: how handlers end *)
(* ================================================================== *)

Section HandlerOutcomes.
Import JS Async Accommodations AccommodationsView.
Variable localeCompare : jstring -> jstring -> Z.

Local Abbreviation settle := (Async.settle Accommodations.update).
Local Abbreviation run := (Async.run Accommodations.update).
Local Abbreviation fetchBarangays :=
  (Accommodations.fetchBarangays localeCompare).

Arguments lit : simpl never.
Arguments municipality_barangays_url : simpl never.
Arguments city_barangays_url : simpl never.
Arguments municipalities_url : simpl never.
Arguments cities_url : simpl never.
Arguments sort : simpl never.

Lemma fetchAccommodations_run
    (env : remote Request Answer) (n : nat) (w : world Request State) :
  run env n fetchAccommodations w
  = World (update (setAccommodations
                     (refreshed (env n SelectAccommodations)
                                (accommodations (state w))))
                  (state w))
          (log w ++ [Issued SelectAccommodations]).
Proof.
  unfold fetchAccommodations, refreshed. cbn.
  destruct w as [[a o e m b f] l]. cbn.
  destruct (env n SelectAccommodations) as [[d|] [|]]; reflexivity.
Qed.

(** X3.  How a submission ends.  When the store reports an error the
    state is left as it was, the dialog stays open with the form as
    typed, and the list is not fetched again.  When the store accepts,
    the dialog is closed, the form is emptied, edit mode is left, the
    barangay set is emptied and the list is fetched again; the
    municipality set is kept. *)
Theorem accommodation_submit_outcome
    (s : State) (env : remote Request Answer) (n : nat)
    (w : world Request State) :
  let d := accommodationData (formData s) in
  let w' := run env n (handleSubmit s) w in
  let result : DbResult :=
    match editing s with
    | Some i => env n (UpdateAccommodation d i)
    | None => env n (InsertAccommodation d)
    end in
  let write :=
    match editing s with
    | Some i => UpdateAccommodation d i
    | None => InsertAccommodation d
    end in
  match result with
  | DbError =>
      state w' = state w /\ calls (log w') = calls (log w) ++ [write]
  | DbOk =>
      state w'
      = {| accommodations :=
             refreshed (env (Datatypes.S n) SelectAccommodations)
                       (accommodations (state w));
           isOpen := false;
           editingId := None;
           municipalities := municipalities (state w);
           barangays := [];
           formData := emptyForm |}
      /\ calls (log w') = calls (log w) ++ [write; SelectAccommodations]
  end.
Proof.
  intros d w' result write. subst d w' result write.
  unfold handleSubmit. cbn [Async.run Async.perform].
  destruct (editing s) as [i|]; cbn [Async.run];
    match goal with
    | |- context [env n ?r] => destruct (env n r)
    end; cbn [Async.run Async.perform set resetForm];
    rewrite ?fetchAccommodations_run; log_simpl; split; reflexivity.
Qed.

(** X4.  How a deletion ends.  Declined at the confirmation: nothing is
    sent to the store and the state is left as it was.  Confirmed: one
    delete of that id is sent; on an error the state is left as it was
    and the list is not fetched again, on success the list is fetched
    again and nothing else changes. *)
Theorem accommodation_delete_outcome
    (id : jstring) (env : remote Request Answer) (n : nat)
    (w : world Request State) :
  let w' := run env n (handleDelete id) w in
  if env n confirm_delete then
    match env (Datatypes.S n) (DeleteAccommodation id) with
    | DbError =>
        state w' = state w
        /\ calls (log w')
           = calls (log w) ++ [confirm_delete; DeleteAccommodation id]
    | DbOk =>
        state w'
        = update (setAccommodations
                    (refreshed
                       (env (Datatypes.S (Datatypes.S n)) SelectAccommodations)
                       (accommodations (state w))))
                 (state w)
        /\ calls (log w')
           = calls (log w)
             ++ [confirm_delete; DeleteAccommodation id; SelectAccommodations]
    end
  else
    state w' = state w /\ toasts (log w') = toasts (log w)
    /\ calls (log w') = calls (log w) ++ [confirm_delete].
Proof.
  intros w'. subst w'. unfold handleDelete. fold confirm_delete.
  cbn [Async.run]. destruct (env n confirm_delete); cbn [negb Async.run].
  - destruct (env (Datatypes.S n) (DeleteAccommodation id));
      cbn [Async.run Async.perform]; rewrite ?fetchAccommodations_run;
      log_simpl; split; reflexivity.
  - log_simpl. repeat split.
Qed.

End HandlerOutcomes.

Section Lookups.
Import JS Async Accommodations AccommodationsView.
Variable localeCompare : jstring -> jstring -> Z.

Local Abbreviation settle := (Async.settle Accommodations.update).
Local Abbreviation run := (Async.run Accommodations.update).
Local Abbreviation fetchBarangays :=
  (Accommodations.fetchBarangays localeCompare).

Arguments lit : simpl never.
Arguments municipality_barangays_url : simpl never.
Arguments city_barangays_url : simpl never.
Arguments municipalities_url : simpl never.
Arguments cities_url : simpl never.
Arguments sort : simpl never.

(** X5.  The fallback response is parsed whatever its [ok] flag.  When the
    municipality endpoint answers not-ok and the city endpoint answers at
    all, the body of the city response decides: an array of records
    replaces the barangay set (in the order of [sort], every record kept),
    a falsy body empties it, and in both cases no toast is shown and
    nothing else in the state changes. *)
Theorem barangay_fallback_ignores_ok
    (code : jstring) (env : remote Request Answer) (n : nat)
    (w : world Request State) (r1 r2 : Response) (v : JsonValue)
    (bs : list GeoRecord) :
  env n (Fetch (municipality_barangays_url code)) = Some r1 ->
  ok r1 = false ->
  env (Datatypes.S n) (Fetch (city_barangays_url code)) = Some r2 ->
  env (Datatypes.S (Datatypes.S n)) (ReadJson r2) = Some v ->
  records v = Some bs ->
  let w' := run env n (fetchBarangays code) w in
  state w' = update (setBarangays (barangaysOf localeCompare bs)) (state w)
  /\ Permutation (barangays (state w')) (map barangay_of bs)
  /\ (v = JFalsy -> barangays (state w') = [])
  /\ toasts (log w') = toasts (log w).
Proof.
  intros E1 Hok E2 E3 Hv w'. subst w'.
  unfold Accommodations.fetchBarangays. cbn.
  rewrite E1. cbn. rewrite Hok. cbn. rewrite E2. cbn. rewrite E3. cbn.
  rewrite Hv. cbn. log_simpl.
  split; [reflexivity|]. split; [apply sort_perm|].
  split; [|reflexivity]. intros ->. injection Hv as <-. reflexivity.
Qed.

(** X6.  Editing a record whose municipality is empty, or is not the name
    of a loaded municipality (none is, before the municipalities have
    arrived), opens the dialog in edit mode and sends nothing: no request
    is issued and no handler is left suspended. *)
Theorem edit_without_known_municipality_fetches_nothing
    (s : State) (a : Accommodation) (w : world Request State) :
  truthy (a_municipality a) = false
  \/ find (fun m => str_eqb (m_name m) (a_municipality a)) (municipalities s)
     = None ->
  let r := settle (handleEdit localeCompare s a) w in
  snd r = Done
  /\ log (fst r) = log w
  /\ isOpen (state (fst r)) = true
  /\ editingId (state (fst r)) = Some (a_id a)
  /\ municipality (formData (state (fst r))) = a_municipality a.
Proof.
  intros H r. subst r. unfold handleEdit.
  cbn [Async.settle set Async.perform].
  destruct (truthy (a_municipality a)) eqn:T.
  - destruct H as [H|H]; [discriminate|]. rewrite H. cbn. repeat split.
  - cbn. repeat split.
Qed.

Lemma find_by_unique_key {A} (key : A -> jstring) (l : list A) (x : A) :
  NoDup (map key l) -> In x l ->
  find (fun y => str_eqb (key y) (key x)) l = Some x.
Proof.
  unfold find. induction l as [|y l IH]; intros Hn Hin; [contradiction|].
  cbn [map] in Hn. inversion Hn as [|? ? Hy Hn']; subst. cbn [List.find].
  destruct Hin as [->|Hin].
  - now rewrite (proj2 (str_eqb_eq _ _) eq_refl).
  - destruct (str_eqb (key y) (key x)) eqn:E; [|now apply IH].
    apply str_eqb_eq in E. exfalso. apply Hy. rewrite E.
    now apply in_map.
Qed.

(** X7.  The municipality dropdown shows what was selected.  When the
    names of the loaded municipalities are distinct and the selected code
    is the code of one of them, then after the selection the dropdown's
    value is that code; the location dropdown shows no value and is
    disabled. *)
Theorem municipality_dropdown_shows_the_selection
    (s : State) (code : jstring) (m : Municipality) (l : list (entry Request)) :
  NoDup (map m_name (municipalities s)) ->
  find (fun x => str_eqb (m_code x) code) (municipalities s) = Some m ->
  let s' := state (fst (settle (handleMunicipalityChange localeCompare s code)
                          (World s l))) in
  municipalityValue s' = code
  /\ locationValue s' = []
  /\ locationDisabled s' = true.
Proof.
  intros Hn Hf s'.
  assert (Hin : In m (municipalities s)) by (eapply find_some; exact Hf).
  assert (Hc : m_code m = code)
    by (apply str_eqb_eq; apply (find_some _ _ Hf)).
  assert (E : s' = {| accommodations := accommodations s; isOpen := isOpen s;
                      editingId := editingId s;
                      municipalities := municipalities s; barangays := [];
                      formData :=
                        {| name := name (formData s);
                           description := description (formData s);
                           location := [];
                           municipality := m_name m;
                           category := category (formData s);
                           image_url := image_url (formData s);
                           contact_number := contact_number (formData s);
                           email := email (formData s);
                           price_range := price_range (formData s);
                           amenities := amenities (formData s);
                           rating := rating (formData s) |} |}).
  { subst s'. unfold handleMunicipalityChange. rewrite Hf.
    cbn [Async.settle set Async.perform].
    destruct (truthy code); reflexivity. }
  rewrite E. unfold municipalityValue, locationValue, locationDisabled.
  cbn [formData municipalities barangays municipality location].
  rewrite (find_by_unique_key m_name _ m Hn Hin).
  split; [exact Hc|]. split; reflexivity.
Qed.



(** X10.  A successful load of the municipalities stores the records of
    both collections, municipalities and cities, each as often as it came,
    whatever the [ok] flags of the two responses; a falsy body counts as
    no records.  Nothing else in the state changes and no toast is
    shown. *)
Theorem municipality_load_merges_both_collections
    (env : remote Request Answer) (n : nat) (w : world Request State)
    (r1 r2 : Response) (v1 v2 : JsonValue) (ms cs : list GeoRecord) :
  env n (FetchBoth municipalities_url cities_url) = Some (r1, r2) ->
  env (Datatypes.S n) (ReadJsonBoth r1 r2) = Some (v1, v2) ->
  records v1 = Some ms -> records v2 = Some cs ->
  let w' := run env n (fetchMunicipalities localeCompare) w in
  Permutation (municipalities (state w')) (map municipality_of (ms ++ cs))
  /\ state w'
     = update (setMunicipalities (municipalities (state w'))) (state w)
  /\ toasts (log w') = toasts (log w).
Proof.
  intros E1 E2 H1 H2 w'. subst w'. unfold fetchMunicipalities. cbn.
  rewrite E1. cbn. rewrite E2. cbn. rewrite H1, H2. cbn. log_simpl.
  split; [apply sort_perm|]. split; reflexivity.
Qed.

End Lookups.

Section OrderTheorem.
Import JS Async Accommodations AccommodationsView Samples.

Lemma unitCompare_consistent : consistent unitCompare.
Proof.
  intros x. induction x as [|a x IH]; intros [|b y]; cbn; try lia.
  destruct (N.compare a b) eqn:E; try lia.
  - apply N.compare_eq in E. subst. rewrite N.compare_refl. apply IH.
  - rewrite N.compare_antisym, E. cbn. lia.
Qed.

(** X11.  Both dropdown lists are always in name order: with a consistent
    [localeCompare], in every state the component reaches, whatever the
    user does and whatever the remote side answers and in whatever order,
    the municipality set and the barangay set are in the order of the
    comparator. *)
Theorem dropdown_lists_stay_in_name_order
    (localeCompare : jstring -> jstring -> Z) (tr : list Step) :
  consistent localeCompare ->
  lists_in_order localeCompare (state (now (steps localeCompare boot tr))).
Proof.
  intros Hc. apply (steps_ordered localeCompare Hc tr boot).
  - constructor.
  - split; constructor.
Qed.

End OrderTheorem.

Section EditMode.
Import JS Async Accommodations AccommodationsView.
Variable localeCompare : jstring -> jstring -> Z.

Local Abbreviation settle := (Async.settle Accommodations.update).
Local Abbreviation step := (Accommodations.step localeCompare).
Local Abbreviation steps := (Accommodations.steps localeCompare).

Lemma form_edit_keeps_editingId (a : Action) (sys : System) :
  edits_form a = true ->
  editingId (state (now (step sys (User a)))) = editingId (state (now sys)).
Proof.
  intros Ha.
  destruct a as [| | | |f v|v|c|c| | |]; try discriminate;
    cbn [Accommodations.step dispatch handlers fold_left]; rewrite start_eq;
    cbn [now]; try reflexivity.
  unfold handleMunicipalityChange. cbn [Async.settle set Async.perform].
  destruct (truthy c); reflexivity.
Qed.

Lemma form_edits_keep_editingId (acts : list Action) (sys : System) :
  Forall (fun a => edits_form a = true) acts ->
  editingId (state (now (steps sys (map User acts))))
  = editingId (state (now sys)).
Proof.
  revert sys. induction acts as [|a acts IH]; intros sys F; [reflexivity|].
  inversion F as [|? ? Ha F']; subst. cbn [map Accommodations.steps fold_left].
  change (fold_left step (map User acts) (step sys (User a)))
    with (steps (step sys (User a)) (map User acts)).
  rewrite IH by exact F'. now apply form_edit_keeps_editingId.
Qed.

Lemma submit_step_calls (sys : System) :
  calls (log (now (step sys (User Submit))))
  = calls (log (now sys))
    ++ [match editing (state (now sys)) with
        | Some i =>
            UpdateAccommodation (accommodationData (formData (state (now sys))))
                                i
        | None =>
            InsertAccommodation (accommodationData (formData (state (now sys))))
        end].
Proof.
  cbn [Accommodations.step dispatch handlers fold_left]. rewrite start_eq.
  cbn [now]. unfold handleSubmit. cbn [Async.settle Async.perform].
  destruct (editing (state (now sys))); cbn; log_simpl; reflexivity.
Qed.

Lemma edit_step_editingId (sys : System) (a : Accommodation) :
  editingId (state (now (step sys (User (Edit a))))) = Some (a_id a).
Proof.
  cbn [Accommodations.step dispatch handlers fold_left]. rewrite start_eq.
  cbn [now]. now rewrite handleEdit_settled.
Qed.


End EditMode.

(* ================================================================== *)
(** ** The review form: comment, button, stars *)
(* ================================================================== *)

Section ReviewFormMore.
Import JS Async Invariants ReviewForm ReviewFormEvents.

Local Abbreviation run := (Async.run ReviewForm.update).
Local Abbreviation settle := (Async.settle ReviewForm.update).

Lemma trim_nil_iff (c : jstring) :
  trim c = [] <-> forallb is_white c = true.
Proof.
  split.
  - intros H. destruct (trim_trimmed_of c) as (a & b & E & Ha & Hb & _).
    rewrite H in E. rewrite E, forallb_app, Ha. exact Hb.
  - intros H. unfold trim, trim_end.
    rewrite <- (app_nil_r c), trim_start_white_app by exact H. reflexivity.
Qed.

(** X12.  The comment of a submission is sent as [null] exactly when the
    draft is empty or white space only.  Otherwise what is sent is the
    draft without the white space at its two ends: not empty, and neither
    beginning nor ending with white space. *)
Theorem blank_comment_is_sent_as_null
    (p : Props) (s : State) (env : remote Request Answer) (n : nat)
    (w : world Request State) :
  rating s <> 0%Z ->
  exists row,
    calls (log (run env n (handleSubmit p s) w))
    = calls (log w) ++ [InsertReview row]
    /\ (row_comment row = None <-> forallb is_white (comment s) = true)
    /\ (forall c,
          row_comment row = Some c ->
          c <> [] /\ begins_white c = false /\ ends_white c = false
          /\ exists a b,
               comment s = a ++ c ++ b
               /\ forallb is_white a = true /\ forallb is_white b = true).
Proof.
  intros Hr. exists (sent_row p s).
  split; [now apply handleSubmit_rated_calls|].
  unfold sent_row. cbn [row_comment].
  destruct (trim_trimmed_of (comment s)) as (a & b & E & Ha & Hb & H1 & H2).
  pose proof (trim_nil_iff (comment s)) as T.
  destruct (trim (comment s)) as [|x t] eqn:Et.
  - split; [split; [intros _; now apply T|reflexivity]|discriminate].
  - split.
    + split; [discriminate|]. intros H. apply T in H. discriminate.
    + intros c [= <-]. split; [discriminate|]. split; [exact H1|].
      split; [exact H2|]. exists a, b. now repeat split.
Qed.

(** X13.  The submit button around a submission.  From the moment the
    insert is issued until it resolves the button is disabled.  After a
    failed insert the state is the one before the submission, so the
    button is enabled again unless the user has already reviewed.  After
    a successful insert the draft is empty and the button is disabled
    until a star is chosen. *)
Theorem submit_button_around_a_submission
    (p : Props) (s : State) (l : list (entry Request))
    (env : remote Request Answer) (n : nat) :
  rating s <> 0%Z -> isSubmitting s = false ->
  let r := settle (handleSubmit p s) (World s l) in
  let w' := run env n (handleSubmit p s) (World s l) in
  snd r <> Done
  /\ isSubmitting (state (fst r)) = true
  /\ submitDisabled p (state (fst r)) = true
  /\ match env n (InsertReview (sent_row p s)) with
     | DbError =>
         state w' = s /\ submitDisabled p (state w') = hasUserReviewed p
     | DbOk =>
         state w'
         = {| rating := 0; hoveredRating := hoveredRating s; comment := [];
              isSubmitting := false |}
         /\ submitDisabled p (state w') = true
     end.
Proof.
  intros Hr Hs r w'. subst r w'. unfold handleSubmit.
  apply Z.eqb_neq in Hr. rewrite Hr.
  cbn [Async.settle Async.run Async.perform set fst snd Async.state].
  split; [discriminate|]. split; [reflexivity|]. split; [reflexivity|].
  rewrite or_null_trim. fold (sent_row p s).
  destruct (env n (InsertReview (sent_row p s)));
    destruct s as [r h c b]; cbn in Hr, Hs |- *; subst b;
    (split; [reflexivity|]); unfold submitDisabled; cbn;
    rewrite ?Hr; reflexivity.
Qed.

Lemma stars_in_scale (i : nat) (star : Z) :
  nth_error stars i = Some star -> (1 <= star <= 5)%Z.
Proof.
  unfold stars.
  do 5 (destruct i as [|i]; [intros [= <-]; lia|]).
  destruct i; discriminate.
Qed.

Lemma dispatch_state (p : Props) (a : Action) (sys : System) :
  a <> Submit ->
  now (dispatch p a sys)
  = fst (settle (handlers p (state (now sys)) a) (now sys))
  /\ waiting (dispatch p a sys) = waiting sys.
Proof.
  intros Ha. unfold dispatch.
  destruct a as [i|i|i|v|]; try contradiction; cbn [handlers];
    try destruct (nth_error stars i); cbn; split; reflexivity.
Qed.

(** X14.  Hovering previews, clicking commits.  With the pointer on a star
    the stars up to it are drawn filled and the rating is untouched; when
    the pointer leaves, the stars up to the rating are filled again; a
    click makes the star the rating, which stays drawn after the pointer
    has left.  None of this sends anything. *)
Theorem stars_preview_and_commit
    (p : Props) (sys : System) (i : nat) (star : Z) :
  nth_error stars i = Some star ->
  let s := state (now sys) in
  let entered := step p sys (User (EnterStar i)) in
  let left := step p entered (User (LeaveStar i)) in
  let clicked := steps p sys [User (EnterStar i); User (ClickStar i);
                              User (LeaveStar i)] in
  (rating (state (now entered)) = rating s
   /\ forall k, filled (state (now entered)) k = (k <=? star)%Z)
  /\ (rating (state (now left)) = rating s
      /\ forall k, filled (state (now left)) k = (k <=? rating s)%Z)
  /\ (rating (state (now clicked)) = star
      /\ forall k, filled (state (now clicked)) k = (k <=? star)%Z)
  /\ comment (state (now clicked)) = comment s
  /\ log (now clicked) = log (now sys)
  /\ waiting clicked = waiting sys.
Proof.
  intros Hi s entered left clicked.
  pose proof (stars_in_scale i star Hi) as Hs.
  assert (Hz : (star =? 0)%Z = false) by (apply Z.eqb_neq; lia).
  subst entered left clicked s.
  unfold steps, step, dispatch, handlers, filled, level.
  cbn [fold_left].
  do 3 (rewrite ?Hi;
        cbn [Async.settle set Async.perform Async.state Async.log now
             waiting suspend update rating hoveredRating comment]).
  rewrite Hz. cbn [Z.eqb]. repeat split.
Qed.

Lemma or_null_not_empty (c : jstring) : or_null c <> Some [].
Proof. destruct c; cbn; discriminate. Qed.

Lemma handleSubmit_ok (p : Props) (s : State) :
  draft_in_scale s -> form_ok p (handleSubmit p s).
Proof.
  intros [[H1 H2] _]. unfold handleSubmit, form_ok.
  cbn [always]. split; [exact I|].
  destruct (Z.eqb_spec (rating s) 0) as [E|E]; cbn [always set].
  - cbn. auto.
  - split; [exact I|]. split.
    + cbn. repeat split; try lia. apply or_null_not_empty.
    + unfold in_scale. intros [|]; cbn; repeat split; lia.
Qed.

Lemma handlers_ok (p : Props) (s : State) (a : Action) :
  draft_in_scale s -> form_ok p (handlers p s a).
Proof.
  intros Hs. destruct a as [i|i|i|v|]; cbn [handlers].
  - destruct (nth_error stars i) eqn:E; cbn; auto.
    split; [|exact I]. apply stars_in_scale in E. unfold in_scale. lia.
  - destruct (nth_error stars i) eqn:E; cbn; auto.
    split; [|exact I]. apply stars_in_scale in E. unfold in_scale. lia.
  - destruct (nth_error stars i) eqn:E; cbn; auto.
    split; [|exact I]. unfold in_scale. lia.
  - cbn. auto.
  - now apply handleSubmit_ok.
Qed.

Lemma perform_ok (p : Props) (e : effect Setter) (w : world Request State) :
  setter_in_scale e -> world_ok p w -> world_ok p (perform update e w).
Proof.
  unfold world_ok, draft_in_scale.
  destruct e as [u| | | |]; cbn [perform Async.state Async.log record];
    intros He [Hs Hl]; rewrite ?calls_app; cbn [app]; log_simpl;
    try (split; assumption).
  destruct u; cbn in *; tauto.
Qed.

Lemma record_ok (p : Props) (r : Request) (w : world Request State) :
  row_ok p r -> world_ok p w -> world_ok p (record (Issued r) w).
Proof.
  unfold world_ok. intros Hr [Hs Hl]. cbn. split; [exact Hs|].
  rewrite calls_app. apply Forall_app. split; [exact Hl|].
  repeat constructor. exact Hr.
Qed.

Lemma suspend_ok (p : Props) (k : Prog) (ps : list Prog) :
  form_ok p k -> Forall (form_ok p) ps -> Forall (form_ok p) (suspend k ps).
Proof.
  intros Hk Hps. destruct k; cbn [suspend]; trivial.
  apply Forall_app. split; [exact Hps|]. constructor; [exact Hk|constructor].
Qed.

Lemma step_ok (p : Props) (sys : System) (l : Step) :
  system_ok p sys -> system_ok p (step p sys l).
Proof.
  intros [Hw Hp]. destruct l as [a|i r]; cbn [step].
  - unfold dispatch.
    destruct (settle_always update _ _ (world_ok p) (perform_ok p)
                (record_ok p) (handlers p (state (now sys)) a) (now sys)
                (handlers_ok p _ a (proj1 Hw)) Hw) as [H1 H2].
    destruct (settle _ (now sys)) as [w' k]. cbn in H1, H2.
    split; [exact H1|]. cbn. now apply suspend_ok.
  - unfold resolve.
    destruct (nth_error (waiting sys) i) as [k|] eqn:En; [|now split].
    destruct k as [|e k|q k]; [now split|now split|].
    assert (Hk : form_ok p (Await q k)).
    { rewrite Forall_forall in Hp. exact (Hp _ (nth_error_In _ _ En)). }
    destruct Hk as [_ Hk].
    destruct (settle_always update _ _ (world_ok p) (perform_ok p)
                (record_ok p) (k r) (now sys) (Hk r) Hw) as [H1 H2].
    destruct (settle (k r) (now sys)) as [w' k']. cbn in H1, H2.
    split; [exact H1|]. cbn. apply suspend_ok; [exact H2|].
    now apply remove_nth_Forall.
Qed.

Lemma filled_count (s : State) :
  in_scale (level s) ->
  List.length (filter (filled s) stars) = Z.to_nat (level s).
Proof.
  unfold in_scale, filled, stars. intros H.
  assert (E : (level s = 0 \/ level s = 1 \/ level s = 2 \/ level s = 3
               \/ level s = 4 \/ level s = 5)%Z) by lia.
  destruct E as [E|[E|[E|[E|[E|E]]]]]; rewrite E; reflexivity.
Qed.

(** X15.  Whatever the user does with the stars, the comment and the
    submit action, and in whatever order inserts resolve: the rating and
    the hovered rating stay between 0 and 5, exactly as many stars are
    drawn filled as the level shown, and every insert that was ever issued
    is for the spot and the user of the props, carries a rating from 1 to
    5, and a comment that is absent or not empty. *)
Theorem review_form_stays_in_scale (p : Props) (tr : list Step) :
  let sys := steps p boot tr in
  let s := state (now sys) in
  draft_in_scale s
  /\ List.length (filter (filled s) stars) = Z.to_nat (level s)
  /\ Forall (row_ok p) (calls (log (now sys))).
Proof.
  intros sys s.
  assert (H : system_ok p sys).
  { subst sys. unfold steps.
    assert (G : forall sys0, system_ok p sys0 ->
                             system_ok p (fold_left (step p) tr sys0)).
    { induction tr as [|l tr IH]; intros sys0 H0; cbn; [exact H0|].
      apply IH. now apply step_ok. }
    apply G. split; [|constructor].
    split; [|constructor]. unfold draft_in_scale, in_scale. cbn. lia. }
  destruct H as [[Hs Hl] _]. split; [exact Hs|]. split; [|exact Hl].
  apply filled_count. destruct Hs as [H1 H2]. unfold level, in_scale in *.
  destruct (hoveredRating s =? 0)%Z; assumption.
Qed.

End ReviewFormMore.

(* ================================================================== *)
(** ** The review list: what is shown *)
(* ================================================================== *)

Section ReviewListMore.
Import JS Async ReviewList.
Local Open Scope Q_scope.

Lemma canDelete_own (p : Props) (r : Review) :
  canDelete p r = true <-> currentUserId p = Some (user_id r).
Proof.
  unfold canDelete. destruct (currentUserId p) as [u|].
  - rewrite str_eqb_eq. split; [now intros ->|now intros [= ->]].
  - split; discriminate.
Qed.

(** X16.  What the list shows.  While loading, the spinner, whatever the
    reviews are.  Otherwise the empty-state message exactly when there is
    no review, else one card per review in the order given; a card offers
    deletion exactly when the viewer is the author of its review, so never
    to a viewer that is not signed in. *)
Theorem review_list_view (p : Props) :
  (isLoading p = true -> render p = Loading)
  /\ (isLoading p = false -> (render p = NoReviews <-> reviews p = []))
  /\ (isLoading p = false -> reviews p <> [] ->
      exists cards,
        render p = Listing (averageText (reviews p)) (countText (reviews p))
                           cards
        /\ map fst cards = reviews p
        /\ (forall r b, In (r, b) cards ->
                        (b = true <-> currentUserId p = Some (user_id r)))
        /\ (currentUserId p = None ->
            Forall (fun c => snd c = false) cards)).
Proof.
  unfold render. split; [now intros ->|]. split.
  - intros ->. destruct (reviews p); split; try discriminate; reflexivity.
  - intros -> Hne. destruct (reviews p) as [|r rs] eqn:E; [contradiction|].
    eexists. split; [reflexivity|]. rewrite <- E. split.
    + rewrite map_map. cbn. apply map_id.
    + split.
      * intros r0 b Hin. apply in_map_iff in Hin as (r1 & [= <- <-] & _).
        apply canDelete_own.
      * intros Hn. apply Forall_map. apply Forall_forall. intros r0 _.
        cbn. unfold canDelete. now rewrite Hn.
Qed.

Lemma mean_as_tenths (zs : list Z) (m : Z) :
  zs <> [] ->
  (10 * total zs = m * Z.of_nat (List.length zs))%Z ->
  mean zs == inject_Z m * (1 # 10).
Proof.
  intros Hne H. unfold mean.
  assert (Hn : (0 < Z.of_nat (List.length zs))%Z)
    by (destruct zs; [contradiction|cbn; lia]).
  assert (Pn : 0 < inject_Z (Z.of_nat (List.length zs)))
    by (rewrite <- (Zlt_Qlt 0); exact Hn).
  assert (H' : 10 * inject_Z (total zs)
               == inject_Z m * inject_Z (Z.of_nat (List.length zs))).
  { rewrite <- inject_Z_mult, <- H, inject_Z_mult. reflexivity. }
  apply (Qmult_inj_r _ _ (inject_Z (Z.of_nat (List.length zs))));
    [lra|].
  setoid_replace (inject_Z (total zs) / inject_Z (Z.of_nat (List.length zs))
                  * inject_Z (Z.of_nat (List.length zs)))
    with (inject_Z (total zs)) by (field; lra).
  lra.
Qed.

Lemma tenth_unique (n m : Z) :
  Qabs (inject_Z n / 10 - inject_Z m * (1 # 10)) <= 1 # 20 -> n = m.
Proof.
  intros H. apply Qabs_Qle_condition in H.
  setoid_replace (inject_Z n / 10) with (inject_Z n * (1 # 10)) in H
    by (field).
  assert (H1 : inject_Z n < inject_Z (m + 1))
    by (rewrite inject_Z_plus; change (inject_Z 1) with 1; lra).
  assert (H2 : inject_Z m < inject_Z (n + 1))
    by (rewrite inject_Z_plus; change (inject_Z 1) with 1; lra).
  rewrite <- Zlt_Qlt in H1, H2. lia.
Qed.

(** X17.  The average is shown exactly when it has one decimal.  For
    integer ratings from 0 to 5: when ten times the sum of the ratings is
    [m] times their number, the text is the numeral of [m / 10] with one
    digit after the point. *)
Theorem average_text_is_exact_at_tenths
    (rs : list Review) (zs : list Z) (m : Z) :
  rs <> [] ->
  map rating rs = map of_Z zs ->
  Forall (fun z => (0 <= z <= 5)%Z) zs ->
  (Z.of_nat (List.length rs) < 2 ^ 32)%Z ->
  (10 * total zs = m * Z.of_nat (List.length zs))%Z ->
  averageText rs = Some (one_decimal m).
Proof.
  intros Hne E F Hlen Hm.
  destruct (average_of_integers rs zs Hne E F Hlen) as (n & _ & Ht & Hb).
  assert (Hz : zs <> []).
  { intros ->. destruct rs; [contradiction|discriminate]. }
  rewrite (mean_as_tenths zs m Hz Hm) in Hb.
  now rewrite Ht, (tenth_unique n m Hb).
Qed.

Lemma total_lower (zs : list Z) :
  Forall (fun z => (1 <= z <= 5)%Z) zs ->
  (Z.of_nat (List.length zs) <= total zs)%Z.
Proof.
  induction 1 as [|z zs Hz _ IH]; cbn [total fold_right List.length];
    [lia|]. fold (total zs). lia.
Qed.

(** X18.  The average stays on the scale.  For ratings from 1 to 5 the
    text is a digit from 1 to 5, a point and one digit, and it is "5.0"
    when the first digit is 5: nothing below "1.0" or above "5.0" is
    shown. *)
Theorem average_text_stays_on_the_scale
    (rs : list Review) (zs : list Z) :
  rs <> [] ->
  map rating rs = map of_Z zs ->
  Forall (fun z => (1 <= z <= 5)%Z) zs ->
  (Z.of_nat (List.length rs) < 2 ^ 32)%Z ->
  exists d t : Z,
    (1 <= d <= 5)%Z /\ (0 <= t <= 9)%Z /\ (d = 5%Z -> t = 0%Z)
    /\ averageText rs = Some ([digit d] ++ lit "." ++ [digit t]).
Proof.
  intros Hne E F Hlen.
  assert (F0 : Forall (fun z => (0 <= z <= 5)%Z) zs)
    by (eapply Forall_impl; [|exact F]; cbn; intros; lia).
  destruct (average_of_integers rs zs Hne E F0 Hlen) as (n & _ & Ht & Hb).
  assert (El : List.length rs = List.length zs).
  { rewrite <- (length_map rating rs), E. apply length_map. }
  pose proof (total_bounds zs F0) as [_ Hu].
  pose proof (total_lower zs F) as Hl.
  assert (Hn : (0 < Z.of_nat (List.length zs))%Z)
    by (rewrite <- El; destruct rs; [contradiction|cbn; lia]).
  assert (Pn : 0 < inject_Z (Z.of_nat (List.length zs)))
    by (rewrite <- (Zlt_Qlt 0); exact Hn).
  assert (M1 : 1 <= mean zs).
  { unfold mean. apply Qle_shift_div_l; [exact Pn|].
    rewrite Qmult_1_l, <- Zle_Qle. exact Hl. }
  assert (M2 : mean zs <= 5).
  { unfold mean. apply Qle_shift_div_r; [exact Pn|].
    change 5 with (inject_Z 5). rewrite <- inject_Z_mult, <- Zle_Qle. lia. }
  apply Qabs_Qle_condition in Hb.
  setoid_replace (inject_Z n / 10) with (inject_Z n * (1 # 10)) in Hb
    by field.
  assert (N1 : inject_Z 9 < inject_Z n) by (change (inject_Z 9) with 9; lra).
  assert (N2 : inject_Z n < inject_Z 51)
    by (change (inject_Z 51) with 51; lra).
  rewrite <- Zlt_Qlt in N1, N2.
  exists (n / 10)%Z, (n mod 10)%Z.
  assert (D : (1 <= n / 10 <= 5)%Z).
  { split; [apply Z.div_le_lower_bound; lia|].
    apply Z.div_le_upper_bound; lia. }
  pose proof (Z.mod_pos_bound n 10 ltac:(lia)) as Hmod.
  split; [exact D|]. split; [lia|]. split.
  - intros H5. pose proof (Z.div_mod n 10 ltac:(lia)). lia.
  - rewrite Ht. unfold one_decimal, int_to_string.
    destruct (Z.eqb_spec (n / 10) 0); [lia|].
    now rewrite decimal_digits_small by lia.
Qed.

End ReviewListMore.

(* ================================================================== *)
(** ** The further facts on sample data *)
(* ================================================================== *)

Section MoreOnSamples.
Import JS Async Accommodations AccommodationsView Samples MoreSamples.

Local Abbreviation run := (Async.run Accommodations.update).
Local Abbreviation settle := (Async.settle Accommodations.update).

Ltac clean_tokens :=
  repeat (constructor;
          [split; [intros H; cbn in H; intuition discriminate
                  |split; reflexivity]|]);
  constructor.

Ltac distinct_names :=
  repeat (constructor; [cbn; intuition discriminate|]); constructor.



Lemma barangay_fallback_ignores_ok_witness :
  let w' := run served 0 (fetchBarangays unitCompare (m_code daraga))
              (World loaded []) in
  barangays (state w') = [anislag; bascaran]
  /\ Permutation (barangays (state w')) [bascaran; anislag]
  /\ toasts (log w') = [].
Proof.
  destruct (barangay_fallback_ignores_ok unitCompare (m_code daraga) served
              0%nat (World loaded []) {| ok := false; body := [] |}
              {| ok := false; body := [] |}
              (JArray [{| g_code := lit "050503002";
                          g_name := lit "Bascaran" |};
                       {| g_code := lit "050503001";
                          g_name := lit "Anislag" |}])
              _ eq_refl eq_refl eq_refl eq_refl eq_refl)
    as (_ & P & _ & T).
  split; [reflexivity|]. split; [exact P|exact T].
Defined.

Lemma edit_without_known_municipality_fetches_nothing_witness :
  let r := settle (handleEdit unitCompare initial inn) (World initial []) in
  a_municipality inn = lit "Daraga"
  /\ snd r = Done /\ log (fst r) = [] /\ isOpen (state (fst r)) = true.
Proof.
  destruct (edit_without_known_municipality_fetches_nothing unitCompare
              initial inn (World initial []) (or_intror eq_refl))
    as (H1 & H2 & H3 & _).
  split; [reflexivity|]. split; [exact H1|]. split; [exact H2|exact H3].
Defined.

Lemma municipality_dropdown_shows_the_selection_witness :
  let s' := state (fst (settle (handleMunicipalityChange unitCompare drafting
                                  (m_code daraga))
                          (World drafting []))) in
  municipalityValue drafting = m_code legazpi
  /\ municipalityValue s' = m_code daraga
  /\ locationValue s' = []
  /\ locationDisabled s' = true.
Proof.
  split; [reflexivity|].
  refine (municipality_dropdown_shows_the_selection unitCompare drafting
            (m_code daraga) daraga [] _ eq_refl).
  distinct_names.
Defined.



Lemma municipality_load_merges_both_collections_witness :
  let w' := run served 0 (fetchMunicipalities unitCompare) (World initial [])
  in
  Permutation (municipalities (state w')) [daraga; legazpi]
  /\ toasts (log w') = [].
Proof.
  destruct (municipality_load_merges_both_collections unitCompare served
              0%nat (World initial [])
              {| ok := true; body := [] |} {| ok := false; body := [] |}
              (JArray [{| g_code := lit "050503000";
                          g_name := lit "Daraga" |}])
              (JArray [{| g_code := lit "050506000";
                          g_name := lit "Legazpi City" |}])
              _ _ eq_refl eq_refl eq_refl eq_refl)
    as (P & _ & T).
  split; [exact P|exact T].
Defined.

Lemma dropdown_lists_stay_in_name_order_witness :
  let tr := [User Mount; Resolve 1 serving; Resolve 1 serving;
             User (SelectMunicipality (lit "050503000"));
             Resolve 1 serving; Resolve 1 serving; Resolve 1 serving] in
  let s := state (now (steps unitCompare boot tr)) in
  municipalities s = [daraga; legazpi]
  /\ barangays s = [anislag; bascaran]
  /\ lists_in_order unitCompare s.
Proof.
  split; [reflexivity|]. split; [reflexivity|].
  exact (dropdown_lists_stay_in_name_order unitCompare _
           unitCompare_consistent).
Defined.


End MoreOnSamples.

Section MoreOnReviewSamples.
Import JS Async ReviewForm ReviewFormEvents Samples MoreSamples.

Local Abbreviation run := (Async.run ReviewForm.update).

Lemma blank_comment_is_sent_as_null_witness :
  exists row,
    calls (log (run (fun _ _ => DbOk) 0 (handleSubmit visitor blank_draft)
                  (World blank_draft [])))
    = [InsertReview row]
    /\ row_comment row = None.
Proof.
  destruct (blank_comment_is_sent_as_null visitor blank_draft
              (fun _ _ => DbOk) 0%nat (World blank_draft []))
    as (row & Hc & Hn & _); [discriminate|].
  exists row. split; [exact Hc|]. apply Hn. reflexivity.
Defined.

Lemma submit_button_around_a_submission_witness :
  let w' := run (fun _ _ => DbError) 0 (handleSubmit visitor review_draft)
              (World review_draft []) in
  state w' = review_draft /\ submitDisabled visitor (state w') = false.
Proof.
  destruct (submit_button_around_a_submission visitor review_draft []
              (fun _ _ => DbError) 0%nat) as (_ & _ & _ & H);
    [discriminate|reflexivity|].
  exact H.
Defined.

Lemma stars_preview_and_commit_witness :
  let entered := step visitor boot (User (EnterStar 2)) in
  let clicked := steps visitor boot [User (EnterStar 2); User (ClickStar 2);
                                     User (LeaveStar 2)] in
  rating (state (now entered)) = 0%Z
  /\ map (filled (state (now entered))) stars
     = [true; true; true; false; false]
  /\ rating (state (now clicked)) = 3%Z.
Proof.
  destruct (stars_preview_and_commit visitor boot 2 3%Z eq_refl)
    as ((H1 & _) & _ & (H3 & _) & _).
  split; [exact H1|]. split; [reflexivity|exact H3].
Defined.

End MoreOnReviewSamples.

Section MoreOnListSamples.
Import JS Async ReviewList Samples MoreSamples.
Local Open Scope Q_scope.

Lemma review_list_view_witness :
  exists cards,
    render seen_by_ana
    = Listing (averageText [by_ana; by_ben]) (countText [by_ana; by_ben])
              cards
    /\ map fst cards = [by_ana; by_ben]
    /\ (forall r b, In (r, b) cards ->
                    (b = true <-> currentUserId seen_by_ana
                                  = Some (user_id r))).
Proof.
  destruct (proj2 (proj2 (review_list_view seen_by_ana)) eq_refl)
    as (cards & Hr & Hm & Hd & _); [discriminate|].
  exists cards. split; [exact Hr|]. split; [exact Hm|exact Hd].
Defined.

Lemma average_text_is_exact_at_tenths_witness :
  averageText five_four_three = Some (one_decimal 40)
  /\ one_decimal 40 = lit "4.0".
Proof.
  split; [|reflexivity].
  refine (average_text_is_exact_at_tenths five_four_three [5; 4; 3]%Z 40
            _ eq_refl _ eq_refl eq_refl).
  - discriminate.
  - repeat constructor; lia.
Defined.

Lemma average_text_stays_on_the_scale_witness :
  exists d t : Z,
    (1 <= d <= 5)%Z /\ (0 <= t <= 9)%Z /\ (d = 5%Z -> t = 0%Z)
    /\ averageText five_four_three = Some ([digit d] ++ lit "." ++ [digit t]).
Proof.
  refine (average_text_stays_on_the_scale five_four_three [5; 4; 3]%Z
            _ eq_refl _ eq_refl).
  - discriminate.
  - repeat constructor; lia.
Defined.

End MoreOnListSamples.
